(** * Expenditure dashboard: ledger pipeline of [dashboard.py]

    A shallow embedding of the loading, tag cleaning, categorisation,
    filtering, aggregation and correction code of [src/dashboard.py].

    Modelling conventions.
    - A Python [str] is a [string]: a sequence of characters whose code
      points lie below 256.  [lower] is Python's [str.lower] on that range.
    - An [Amount] is an exact integer ([Z]); sums are exact.
    - A parsed [Date] is a day ordinal ([Z]): the dates produced by the
      format [%d/%m/%Y] carry no time of day, and consecutive calendar days
      are consecutive integers.
    - A data frame is the list of its rows in frame order; every row carries
      its index label [idx], which filtering and sorting never renumber.
    - The records [raw_row] and [row] hold rows all of whose cells are
      filled.  A field left empty in the file is read as the float [nan];
      what lines 37 and 53-61 do on such a cell is given in [Cells], and
      what line 123 does on it in [tag_sum]. *)

From Stdlib Require Import Bool List ZArith NArith Lia Ascii String.
From Stdlib Require Import Permutation Sorted.
Import ListNotations.

Open Scope string_scope.
Open Scope list_scope.

(** ** Strings *)

Module Str.

(** [str.lower] on one character: [A-Z], and the upper-case letters of the
    range 192..222 (without the multiplication sign 215), move up by 32. *)
Definition is_upper (c : ascii) : bool :=
  let n := N_of_ascii c in
  ((65 <=? n) && (n <=? 90) ||
   (192 <=? n) && (n <=? 222) && negb (n =? 215))%N.

Definition lower_char (c : ascii) : ascii :=
  if is_upper c then ascii_of_N (N_of_ascii c + 32) else c.

Fixpoint lower (s : string) : string :=
  match s with
  | EmptyString => EmptyString
  | String c t => String (lower_char c) (lower t)
  end.

(** [starts_with p s]: [s.startswith(p)]. *)
Fixpoint starts_with (p s : string) : bool :=
  match p, s with
  | EmptyString, _ => true
  | String _ _, EmptyString => false
  | String a p', String b s' => Ascii.eqb a b && starts_with p' s'
  end.

(** [str_in k s]: the Python test [k in s] on strings. *)
Fixpoint str_in (k s : string) : bool :=
  starts_with k s ||
  match s with
  | EmptyString => false
  | String _ t => str_in k t
  end.

(** The property [str_in] decides. *)
Definition occurs (k s : string) : Prop :=
  exists pre post, s = (pre ++ k ++ post)%string.

(** [c] is one of the characters of [s]. *)
Fixpoint has_char (c : ascii) (s : string) : bool :=
  match s with
  | EmptyString => false
  | String d t => Ascii.eqb c d || has_char c t
  end.

(** The whitespace class of the pattern [\s] below code point 256. *)
Definition is_space (c : ascii) : bool :=
  let n := N_of_ascii c in
  ((9 <=? n) && (n <=? 13) || (28 <=? n) && (n <=? 32) ||
   (n =? 133) || (n =? 160))%N.

(** [sep.join(l)]. *)
Fixpoint join (sep : string) (l : list string) : string :=
  match l with
  | [] => ""
  | [x] => x
  | x :: t => (x ++ sep ++ join sep t)%string
  end.

End Str.

(** ** Categorizer (lines 40-61) *)

(** The keyword table; a Python dict iterates in insertion order, so the
    table is the list of its items as declared. *)
Definition categories_keywords : list (string * list string) :=
  [ ("Food and Dining",
      ["swiggy"; "zomato"; "ubereats"; "heisetasse"; "restaurant"; "hotel";
       "food"; "dining"; "taco bell"; "domi"; "bakers"; "coffee"; "leons";
       "hang out"; "third wave"; "churrolto"; "ushodaya"; "tibbs"; "koi";
       "ding dong"; "cara cara"]);
    ("Groceries",
      ["grocery"; "bigbasket"; "grofers"; "supermarket"; "milk";
       "vegetables"; "blinkit"; "zepto"; "kpn"; "ushodaya"]);
    ("Transfers", ["money sent"]);
    ("Shopping",
      ["amazon"; "flipkart"; "myntra"; "shopping"; "clothing"; "electronics";
       "diverse retails"; "westside"; "techmash"]);
    ("Travel & Stay",
      ["uber"; "ola"; "rapido"; "hyderabad metro"; "brevistay"]);
    ("Entertainment",
      ["netflix"; "prime"; "hotstar"; "movie"; "cinema"; "subscription";
       "apple media"; "spotify"]);
    ("Fuel", ["fuel"; "petrol"]);
    ("Loan", ["Vatturi Paritosh"]);
    ("Investments/ Savings", ["icclgroww"]);
    ("Money Received", ["received from"]) ].

(** The inner loop: [for keyword in keywords: if keyword in details_lower]. *)
Fixpoint any_keyword (keywords : list string) (details_lower : string) : bool :=
  match keywords with
  | [] => false
  | keyword :: rest =>
      if Str.str_in keyword details_lower then true
      else any_keyword rest details_lower
  end.

(** The outer loop over the items of the table, returning at the first
    category one of whose keywords is found. *)
Fixpoint scan_categories (table : list (string * list string))
    (details_lower : string) : option string :=
  match table with
  | [] => None
  | (category, keywords) :: rest =>
      if any_keyword keywords details_lower then Some category
      else scan_categories rest details_lower
  end.

Definition categorize_with (table : list (string * list string))
    (details tags : string) : string :=
  let details_lower := Str.lower details in
  match scan_categories table details_lower with
  | Some category => category
  | None =>
      if Str.str_in "Money Received" tags then "Money Received" else "Other"
  end.

Definition categorize_transaction (details tags : string) : string :=
  categorize_with categories_keywords details tags.

(** ** Tag cleaning (line 37)

    [str.replace(r'#\?\?\s*', '', regex=True)]: one left-to-right pass that
    deletes every match of the marker and the whitespace after it.  The flag
    [in_ws] holds while the scan is inside the [\s*] part of a match. *)
Fixpoint strip_marker (in_ws : bool) (s : string) : string :=
  match s with
  | EmptyString => EmptyString
  | String c t =>
      if in_ws && Str.is_space c then strip_marker true t
      else
        match c, t with
        | "#"%char, String "?"%char (String "?"%char u) => strip_marker true u
        | _, _ => String c (strip_marker false t)
        end
  end.

Definition clean_tags (tags : string) : string := strip_marker false tags.

(** ** Ledger loading (lines 18-34) *)

(** [st.error(message); st.stop()] ends the run with [message] shown. *)
Inductive outcome (A : Type) : Type :=
| Loaded (a : A)
| Stopped (message : string).
Arguments Loaded {A} a.
Arguments Stopped {A} message.

(** The frame read from the file: its columns in file order, each with its
    cells as text. *)
Definition frame : Type := list (string * list string).

Definition columns (df : frame) : list string := map fst df.

(** [df[name]]; [None] is the [KeyError]. *)
Fixpoint column (name : string) (df : frame) : option (list string) :=
  match df with
  | [] => None
  | (n, cells) :: rest =>
      if String.eqb name n then Some cells else column name rest
  end.

(** [col in df.columns]. *)
Definition in_columns (col : string) (df : frame) : bool :=
  existsb (String.eqb col) (columns df).

Definition required_columns : list string :=
  ["Transaction Details"; "Amount"; "Tags"].

Definition missing_cols (df : frame) : list string :=
  filter (fun col => negb (in_columns col df)) required_columns.

Definition date_missing_message : string :=
  "CSV must contain a 'Date' column.".

Definition date_format_message : string :=
  "Invalid date format in 'Date' column. Expected format: dd/mm/yyyy".

Definition missing_message (missing : list string) : string :=
  "CSV is missing required columns: " ++ Str.join ", " missing.

Section Loader.

(** [pd.to_datetime(cells, format='%d/%m/%Y')]: the day ordinals of the
    cells, or [None] for its [ValueError]. *)
Variable to_datetime : list string -> option (list Z).

(** The checks in the order of the source: first the [Date] column and its
    parse, then the three other required columns. *)
Definition load (df : frame) : outcome (list Z * frame) :=
  match column "Date" df with
  | None => Stopped date_missing_message
  | Some cells =>
      match to_datetime cells with
      | None => Stopped date_format_message
      | Some dates =>
          match missing_cols df with
          | [] => Loaded (dates, df)
          | _ :: _ => Stopped (missing_message (missing_cols df))
          end
      end
  end.

End Loader.

(** *** A day/month/year parser

    An instance for [to_datetime], used to run [load] on concrete files:
    a cell is [d/m/yyyy] with one or two digits of day and month and four of
    year, naming a day that exists; its value is the number of days since
    1 January 1970. *)
Module Dmy.

Definition digit (c : ascii) : option Z :=
  let n := N_of_ascii c in
  if ((48 <=? n) && (n <=? 57))%N then Some (Z.of_N n - 48)%Z else None.

Fixpoint number (acc : Z) (s : string) : option Z :=
  match s with
  | EmptyString => Some acc
  | String c t =>
      match digit c with
      | Some d => number (10 * acc + d)%Z t
      | None => None
      end
  end.

(** [s.split('/')], with the field under construction in [cur]. *)
Fixpoint split_slash (cur s : string) : list string :=
  match s with
  | EmptyString => [cur]
  | String c t =>
      if Ascii.eqb c "/"%char then cur :: split_slash "" t
      else split_slash (cur ++ String c "")%string t
  end.

Definition is_leap (y : Z) : bool :=
  ((y mod 4 =? 0) && (negb (y mod 100 =? 0) || (y mod 400 =? 0)))%Z.

Definition days_in_month (y m : Z) : Z :=
  (if m =? 2 then (if is_leap y then 29 else 28)
   else if (m =? 4) || (m =? 6) || (m =? 9) || (m =? 11) then 30
   else 31)%Z.

Definition days_from_civil (y m d : Z) : Z :=
  (let y' := if m <=? 2 then y - 1 else y in
   let era := y' / 400 in
   let yoe := y' - era * 400 in
   let doy := (153 * (if 2 <? m then m - 3 else m + 9) + 2) / 5 + d - 1 in
   let doe := yoe * 365 + yoe / 4 - yoe / 100 + doy in
   era * 146097 + doe - 719468)%Z.

Definition field (lo hi : nat) (s : string) : option Z :=
  if (lo <=? String.length s)%nat && (String.length s <=? hi)%nat
  then number 0 s else None.

Definition strptime (cell : string) : option Z :=
  match split_slash "" cell with
  | [d; m; y] =>
      match field 1 2 d, field 1 2 m, field 4 4 y with
      | Some d, Some m, Some y =>
          if ((1 <=? m) && (m <=? 12) && (1 <=? d) &&
              (d <=? days_in_month y m) && (1 <=? y))%Z
          then Some (days_from_civil y m d) else None
      | _, _, _ => None
      end
  | _ => None
  end.

Fixpoint to_datetime (cells : list string) : option (list Z) :=
  match cells with
  | [] => Some []
  | cell :: rest =>
      match strptime cell, to_datetime rest with
      | Some d, Some ds => Some (d :: ds)
      | _, _ => None
      end
  end.

End Dmy.

(** ** Rows of the ledger *)

(** A row as loaded: the required columns and the index label. *)
Record raw_row : Type := mk_raw_row {
  raw_idx : nat;
  raw_Date : Z;
  raw_Details : string;
  raw_Amount : Z;
  raw_Tags : string
}.

(** A row of the ledger held in the session, with its [Category]. *)
Record row : Type := mk_row {
  idx : nat;
  Date : Z;
  Transaction_Details : string;
  Amount : Z;
  Tags : string;
  Category : string
}.

(** Lines 37 and 64 on one row: [Tags] is cleaned first, and the
    categorizer is then applied to the row's [Transaction Details] and to
    the [Tags] the row holds at that point. *)
Definition prepare_row (r : raw_row) : row :=
  let tags := clean_tags (raw_Tags r) in
  {| idx := raw_idx r;
     Date := raw_Date r;
     Transaction_Details := raw_Details r;
     Amount := raw_Amount r;
     Tags := tags;
     Category := categorize_transaction (raw_Details r) tags |}.

Definition prepare (df : list raw_row) : list row := map prepare_row df.

(** ** Blank cells (lines 37 and 53-61)

    A field left empty in the file is read as the float [nan].  A cell of
    the text columns [Transaction Details] and [Tags] is therefore a [str]
    or blank, and the functions of lines 37 and 53-61 are given here on
    such cells; on two [str] cells they are [clean_tags] and
    [categorize_transaction] above.  A column none of whose cells holds
    text is not read as a text column and is outside these definitions:
    on it the accessor [.str] of line 37 raises. *)
Module Cells.

Inductive cell : Type :=
| Text (s : string)
| Blank.

(** What a call gives: the value it returns or the exception it raises. *)
Inductive result (A : Type) : Type :=
| Returns (a : A)
| Raises (exception : string).
Arguments Returns {A} a.
Arguments Raises {A} exception.

(** [str(x)]; the float [nan] prints as [nan]. *)
Definition str (x : cell) : string :=
  match x with
  | Text s => s
  | Blank => "nan"
  end.

(** Line 37 on one cell: [.str.replace] leaves a blank cell blank. *)
Definition str_replace (x : cell) : cell :=
  match x with
  | Text s => Text (clean_tags s)
  | Blank => Blank
  end.

(** Lines 53-61.  The test ['Money Received' in tags] is reached when no
    keyword is found; on the float [nan] it raises [TypeError]. *)
Definition categorize_transaction (details tags : cell) : result string :=
  let details_lower := Str.lower (str details) in
  match scan_categories categories_keywords details_lower with
  | Some category => Returns category
  | None =>
      match tags with
      | Text t =>
          Returns (if Str.str_in "Money Received" t then "Money Received"
                   else "Other")
      | Blank => Raises "TypeError"
      end
  end.

End Cells.

(** ** Filters (lines 88-104) *)

(** [series.isin(values)] on one cell. *)
Definition isin (c : string) (values : list string) : bool :=
  existsb (String.eqb c) values.

Definition date_filter (start_date end_date : Z) (df : list row) : list row :=
  filter (fun r => (start_date <=? Date r)%Z && (Date r <=? end_date)%Z) df.

(** [if selected_categories:] guards the category filter: an empty
    selection leaves the frame as it is. *)
Definition category_filter (selected_categories : list string)
    (df_filtered : list row) : list row :=
  match selected_categories with
  | [] => df_filtered
  | _ :: _ =>
      filter (fun r => isin (Category r) selected_categories) df_filtered
  end.

Definition amount_filter (amount_range : Z * Z) (df_filtered : list row)
    : list row :=
  filter (fun r => (fst amount_range <=? Amount r)%Z &&
                   (Amount r <=? snd amount_range)%Z) df_filtered.

Definition apply_filters (start_date end_date : Z)
    (selected_categories : list string) (amount_range : Z * Z)
    (df : list row) : list row :=
  amount_filter amount_range
    (category_filter selected_categories
       (date_filter start_date end_date df)).

(** ** Aggregates (lines 107-119, 147, 159) *)

(** [series.sum()]. *)
Definition total (l : list Z) : Z := fold_right Z.add 0%Z l.

Definition credits (df_filtered : list row) : Z :=
  total (map Amount (filter (fun r => (0 <? Amount r)%Z) df_filtered)).

Definition debits (df_filtered : list row) : Z :=
  Z.abs (total (map Amount (filter (fun r => (Amount r <? 0)%Z) df_filtered))).

(** The two totals in the words of the specification, written out row by
    row: the amounts above zero added up, and the absolute values of the
    amounts below zero added up; a row of amount zero adds to neither. *)
Fixpoint credited_spec (rows : list row) : Z :=
  match rows with
  | [] => 0%Z
  | r :: rest =>
      if (0 <? Amount r)%Z then (Amount r + credited_spec rest)%Z
      else credited_spec rest
  end.

Fixpoint debited_spec (rows : list row) : Z :=
  match rows with
  | [] => 0%Z
  | r :: rest =>
      if (Amount r <? 0)%Z then (Z.abs (Amount r) + debited_spec rest)%Z
      else debited_spec rest
  end.

(** A row of [exp_df]: a debit row with its [Abs Amount] column. *)
Record exp_row : Type := mk_exp_row {
  base : row;
  Abs_Amount : Z
}.

Definition exp_df (df_filtered : list row) : list exp_row :=
  map (fun r => {| base := r; Abs_Amount := (- Amount r)%Z |})
      (filter (fun r => (Amount r <? 0)%Z) df_filtered).

(** *** Daily sums: [resample('D', on='Date')['Abs Amount'].sum()]

    The bins are the days from the least to the greatest [Date] of the
    frame, one per day; the sum of a bin with no row is 0.  An empty frame
    has no bins. *)
Definition exp_date (e : exp_row) : Z := Date (base e).

Definition day_total (exp : list exp_row) (day : Z) : Z :=
  total (map Abs_Amount (filter (fun e => (exp_date e =? day)%Z) exp)).

Definition day_range (lo hi : Z) : list Z :=
  map (fun k => (lo + Z.of_nat k)%Z) (seq 0 (Z.to_nat (hi - lo + 1))).

Definition daily_sum (exp : list exp_row) : list (Z * Z) :=
  match map exp_date exp with
  | [] => []
  | d :: ds =>
      let lo := fold_right Z.min d ds in
      let hi := fold_right Z.max d ds in
      map (fun day => (day, day_total exp day)) (day_range lo hi)
  end.

(** *** Top debits: [sort_values('Abs Amount', ascending=False).head(10)]

    [sort_values] is called with its default [kind], [quicksort], which
    pandas documents as not stable: the result is the rows of the frame
    rearranged in descending key order, and the order among rows of equal
    key is not fixed by the call.  The sort is therefore a relation between
    a frame and its possible results. *)
Definition desc (a b : exp_row) : Prop := (Abs_Amount b <= Abs_Amount a)%Z.

Definition sort_values_desc (exp sorted : list exp_row) : Prop :=
  Permutation exp sorted /\ StronglySorted desc sorted.

Definition head (n : nat) (l : list exp_row) : list exp_row := firstn n l.

Definition top_n (n : nat) (exp out : list exp_row) : Prop :=
  exists sorted, sort_values_desc exp sorted /\ out = head n sorted.

Definition top_tx (exp out : list exp_row) : Prop := top_n 10 exp out.

(** One of the results the sort may give: insertion from the right, each
    row going in front of the rows of equal key that follow it in the
    frame. *)
Fixpoint insert_desc (e : exp_row) (l : list exp_row) : list exp_row :=
  match l with
  | [] => [e]
  | x :: t =>
      if (Abs_Amount x <=? Abs_Amount e)%Z then e :: l
      else x :: insert_desc e t
  end.

Definition stable_sort_desc (exp : list exp_row) : list exp_row :=
  fold_right insert_desc [] exp.

(** Rows of equal key keep the order of their index labels. *)
Definition ties_in_row_order (out : list exp_row) : Prop :=
  forall i j a b,
    (i < j)%nat -> nth_error out i = Some a -> nth_error out j = Some b ->
    Abs_Amount a = Abs_Amount b -> (idx (base a) < idx (base b))%nat.

(** *** The sort behind [sort_values]

    [sort_values] with its default [kind] sorts through numpy's [argsort]
    of kind [quicksort].  [Quicksort] gives numpy's scalar routine for it
    on an array of keys [v]: the array [tosort] of positions is rearranged
    in place, by median-of-three partitions while a stretch has more than
    [SMALL_QUICKSORT + 1] entries and by insertion on the shorter
    stretches.  Past the depth limit the routine hands a stretch over to a
    heap sort, which is not given here: the result is then [None].  A
    numpy built to use a vectorised sort on the processor at hand may leave
    rows of equal key in another order; what holds of every order is stated
    on the relation [top_tx] above. *)
Module Quicksort.

Definition SMALL_QUICKSORT : Z := 16.

Definition get (tosort : list nat) (p : Z) : nat :=
  nth (Z.to_nat p) tosort 0%nat.

Fixpoint set_nth (tosort : list nat) (n x : nat) : list nat :=
  match tosort, n with
  | [], _ => []
  | _ :: t, O => x :: t
  | y :: t, S n' => y :: set_nth t n' x
  end.

Definition set (tosort : list nat) (p : Z) (x : nat) : list nat :=
  set_nth tosort (Z.to_nat p) x.

(** [INTP_SWAP]: the entries at [p] and [q] change places. *)
Definition swap (tosort : list nat) (p q : Z) : list nat :=
  set (set tosort p (get tosort q)) q (get tosort p).

(** The key of the entry at [p]. *)
Definition key (v : list Z) (tosort : list nat) (p : Z) : Z :=
  nth (get tosort p) v 0%Z.

(** [do ++pi; while] the key at [pi] is below [vp]. *)
Fixpoint scan_up (fuel : nat) (v : list Z) (tosort : list nat) (vp pi : Z)
    : Z :=
  let pi := (pi + 1)%Z in
  match fuel with
  | O => pi
  | S fuel' =>
      if (key v tosort pi <? vp)%Z then scan_up fuel' v tosort vp pi else pi
  end.

(** [do --pj; while] the key at [pj] is above [vp]. *)
Fixpoint scan_down (fuel : nat) (v : list Z) (tosort : list nat) (vp pj : Z)
    : Z :=
  let pj := (pj - 1)%Z in
  match fuel with
  | O => pj
  | S fuel' =>
      if (vp <? key v tosort pj)%Z then scan_down fuel' v tosort vp pj else pj
  end.

(** The loop [for (;;)] of a partition. *)
Fixpoint exchange (fuel : nat) (v : list Z) (tosort : list nat)
    (vp pi pj : Z) : list nat * Z :=
  let pi := scan_up (List.length tosort) v tosort vp pi in
  let pj := scan_down (List.length tosort) v tosort vp pj in
  if (pj <=? pi)%Z then (tosort, pi)
  else
    match fuel with
    | O => (tosort, pi)
    | S fuel' => exchange fuel' v (swap tosort pi pj) vp pi pj
    end.

(** One partition of the stretch from [pl] to [pr]: the array after it and
    the place [pi] of the pivot. *)
Definition partition (v : list Z) (tosort : list nat) (pl pr : Z)
    : list nat * Z :=
  let pm := (pl + Z.shiftr (pr - pl) 1)%Z in
  let tosort :=
    if (key v tosort pm <? key v tosort pl)%Z then swap tosort pm pl
    else tosort in
  let tosort :=
    if (key v tosort pr <? key v tosort pm)%Z then swap tosort pr pm
    else tosort in
  let tosort :=
    if (key v tosort pm <? key v tosort pl)%Z then swap tosort pm pl
    else tosort in
  let vp := key v tosort pm in
  let pi := pl in
  let pj := (pr - 1)%Z in
  let tosort := swap tosort pm pj in
  let (tosort, pi) := exchange (List.length tosort) v tosort vp pi pj in
  let pk := (pr - 1)%Z in
  (swap tosort pi pk, pi).

(** [while ((pr - pl) > SMALL_QUICKSORT)]: partitions, the larger part
    pushed on the stack with the depth left. *)
Fixpoint partitions (fuel : nat) (v : list Z) (tosort : list nat)
    (pl pr cdepth : Z) (stack : list (Z * Z * Z))
    : list nat * Z * Z * Z * list (Z * Z * Z) :=
  match fuel with
  | O => (tosort, pl, pr, cdepth, stack)
  | S fuel' =>
      if (SMALL_QUICKSORT <? pr - pl)%Z then
        let (tosort, pi) := partition v tosort pl pr in
        let cdepth := (cdepth - 1)%Z in
        if (pi - pl <? pr - pi)%Z then
          partitions fuel' v tosort pl (pi - 1) cdepth
            ((pi + 1, pr, cdepth)%Z :: stack)
        else
          partitions fuel' v tosort (pi + 1) pr cdepth
            ((pl, pi - 1, cdepth)%Z :: stack)
      else (tosort, pl, pr, cdepth, stack)
  end.

(** The inner loop of the insertion: entries above [vp] move up by one. *)
Fixpoint shift_up (fuel : nat) (v : list Z) (tosort : list nat)
    (vp pl pj : Z) : list nat * Z :=
  match fuel with
  | O => (tosort, pj)
  | S fuel' =>
      let pk := (pj - 1)%Z in
      if (pl <? pj)%Z && (vp <? key v tosort pk)%Z
      then shift_up fuel' v (set tosort pj (get tosort pk)) vp pl pk
      else (tosort, pj)
  end.

(** [for (pi = pl + 1; pi <= pr; ++pi)], [count] turns from [pi] on. *)
Fixpoint insertion (count : nat) (v : list Z) (tosort : list nat)
    (pl pi : Z) : list nat :=
  match count with
  | O => tosort
  | S count' =>
      let vi := get tosort pi in
      let vp := nth vi v 0%Z in
      let (tosort, pj) := shift_up (List.length tosort) v tosort vp pl pi in
      insertion count' v (set tosort pj vi) pl (pi + 1)
  end.

(** The loop [while (1)] over the stretches on the stack. *)
Fixpoint stretches (fuel : nat) (v : list Z) (tosort : list nat)
    (pl pr cdepth : Z) (stack : list (Z * Z * Z)) : option (list nat) :=
  match fuel with
  | O => None
  | S fuel' =>
      if (cdepth <? 0)%Z then None
      else
        match partitions (List.length tosort) v tosort pl pr cdepth stack with
        | (tosort, pl, pr, _, stack) =>
            let tosort := insertion (Z.to_nat (pr - pl)) v tosort pl (pl + 1) in
            match stack with
            | [] => Some tosort
            | (pl', pr', cdepth') :: stack' =>
                stretches fuel' v tosort pl' pr' cdepth' stack'
            end
        end
  end.

(** [v.argsort(kind='quicksort')]. *)
Definition argsort (v : list Z) : option (list nat) :=
  let num := Z.of_nat (List.length v) in
  stretches (S (List.length v)) v (seq 0 (List.length v)) 0 (num - 1)
    (Z.log2 num * 2) [].

End Quicksort.

(** pandas' [nargsort(items, kind='quicksort', ascending=False)] on keys
    none of which is missing: the keys and their positions are reversed,
    sorted ascending, and the positions found are reversed again. *)
Definition nargsort_desc (items : list Z) : option (list nat) :=
  let idx := seq 0 (List.length items) in
  let non_nans := rev items in
  let non_nan_idx := rev idx in
  match Quicksort.argsort non_nans with
  | Some order => Some (rev (map (fun k => nth k non_nan_idx 0%nat) order))
  | None => None
  end.

(** [exp_df.iloc[indexer]]. *)
Definition take (exp : list exp_row) (indexer : list nat) : list exp_row :=
  flat_map (fun i => match nth_error exp i with
                     | Some e => [e]
                     | None => []
                     end) indexer.

(** Line 159 with that sort. *)
Definition top_tx_quicksort (exp : list exp_row) : option (list exp_row) :=
  match nargsort_desc (map Abs_Amount exp) with
  | Some indexer => Some (head 10 (take exp indexer))
  | None => None
  end.

(** ** Corrections (lines 165-186) *)

Definition uncat (exp : list exp_row) : list exp_row :=
  filter (fun e => String.eqb (Category (base e)) "Other") exp.

Definition set_Category (c : string) (r : row) : row :=
  {| idx := idx r; Date := Date r;
     Transaction_Details := Transaction_Details r; Amount := Amount r;
     Tags := Tags r; Category := c |}.

(** [df.loc[i, 'Category'] = c] for a label [i] of the frame. *)
Definition loc_set_Category (i : nat) (c : string) (df : list row) : list row :=
  map (fun r => if (idx r =? i)%nat then set_Category c r else r) df.

(** One turn of the loop over the edited rows: the label of the row and the
    [Category] cell it now holds. *)
Definition apply_edit (df : list row) (edit : nat * string) : list row :=
  let (i, category) := edit in
  if negb (String.eqb category "Other") then loc_set_Category i category df
  else df.

Definition update_categories (df : list row) (edited_uncat : list (nat * string))
    : list row :=
  fold_left apply_edit edited_uncat df.

(** ** The categories offered for selection (line 95) *)

(** [series.unique()]: the values, each once, in the order in which they
    first appear. *)
Fixpoint unique (l : list string) : list string :=
  match l with
  | [] => []
  | x :: t => x :: filter (fun y => negb (String.eqb y x)) (unique t)
  end.

(** [sorted(values)] on strings: ascending in the order of [str], which
    compares code point by code point. *)
Fixpoint insert_sorted (x : string) (l : list string) : list string :=
  match l with
  | [] => [x]
  | y :: t => if String.leb x y then x :: l else y :: insert_sorted x t
  end.

Definition sorted (l : list string) : list string :=
  fold_right insert_sorted [] l.

(** The order of [sorted]. *)
Definition str_le (x y : string) : Prop := String.leb x y = true.

Definition all_categories (df : list row) : list string :=
  sorted (unique (map Category df)).

(** [out] is [l] with some of its elements left out, the others in their
    order. *)
Inductive subseq {A : Type} : list A -> list A -> Prop :=
| subseq_nil : subseq [] []
| subseq_skip x out l : subseq out l -> subseq out (x :: l)
| subseq_keep x out l : subseq out l -> subseq (x :: out) (x :: l).

(** ** Grouped sums (lines 123 and 130)

    [groupby(key)[value].sum().reset_index()]: the rows whose key is
    missing are left out; there is one row for every value of the key in
    the others, the values in ascending order, each with the sum of
    [value] over the rows that have it. *)
Definition has_key (k : string) (key : option string) : bool :=
  match key with
  | Some s => String.eqb s k
  | None => false
  end.

(** The row has a key. *)
Definition keyed {R : Type} (key : R -> option string) (r : R) : bool :=
  match key r with
  | Some _ => true
  | None => false
  end.

Fixpoint present (keys : list (option string)) : list string :=
  match keys with
  | [] => []
  | Some s :: rest => s :: present rest
  | None :: rest => present rest
  end.

Definition groupby_sum {R : Type} (key : R -> option string)
    (value : R -> Z) (rows : list R) : list (string * Z) :=
  map (fun k =>
         (k, total (map value (filter (fun r => has_key k (key r)) rows))))
      (sorted (unique (present (map key rows)))).

(** Line 130.  The [Category] of a row is never missing. *)
Definition category_sum (exp : list exp_row) : list (string * Z) :=
  groupby_sum (fun e => Some (Category (base e))) Abs_Amount exp.

(** Line 123, on the two columns of [exp_df] it reads: the [Tags] cell and
    the [Abs Amount] of each row.  A blank [Tags] cell is a missing key. *)
Definition tag_key (tags : Cells.cell) : option string :=
  match tags with
  | Cells.Text s => Some s
  | Cells.Blank => None
  end.

Definition tag_sum (exp : list (Cells.cell * Z)) : list (string * Z) :=
  groupby_sum (fun e => tag_key (fst e)) snd exp.

(** ** The edited table (lines 165-181)

    The editor shows the rows of [uncat] with their labels and returns them
    with the [Category] cells as the user leaves them; [choice] gives the
    cell of the row of each label. *)
Definition edited_uncat (choice : nat -> string) (exp : list exp_row)
    : list (nat * string) :=
  map (fun e => (idx (base e), choice (idx (base e)))) (uncat exp).

(** The editor has a row of label [i]: the view has a debit row of that
    label whose category is [Other]. *)
Definition in_editor (df_filtered : list row) (i : nat) : bool :=
  existsb (fun v => (idx v =? i)%nat && (Amount v <? 0)%Z &&
                    String.eqb (Category v) "Other") df_filtered.

(** The category the loop of the handler leaves on a row of label [i]:
    that of the last edit of the label that is not [Other], if any. *)
Definition last_edit (i : nat) (edits : list (nat * string)) : option string :=
  match
    find (fun e => (fst e =? i)%nat)
         (rev (filter (fun e => negb (String.eqb (snd e) "Other")) edits))
  with
  | Some e => Some (snd e)
  | None => None
  end.

(** ** Text kept by the tag cleaning *)

(** The characters of a match of the pattern: the marker's and whitespace. *)
Definition marker_or_space (c : ascii) : bool :=
  Ascii.eqb c "#" || Ascii.eqb c "?" || Str.is_space c.

Fixpoint payload (s : string) : string :=
  match s with
  | EmptyString => EmptyString
  | String c t => if marker_or_space c then payload t else String c (payload t)
  end.

Fixpoint all_space (s : string) : bool :=
  match s with
  | EmptyString => true
  | String c t => Str.is_space c && all_space t
  end.

(** [s] does not begin with whitespace. *)
Definition no_leading_space (s : string) : bool :=
  match s with
  | EmptyString => true
  | String c _ => negb (Str.is_space c)
  end.

(** * Properties *)

(** ** Strings *)

Lemma starts_with_spec (p s : string) :
  Str.starts_with p s = true <-> exists post, s = (p ++ post)%string.
Proof.
  revert s; induction p as [|a p IH]; intros s; simpl.
  - split; [intros _; now exists s | reflexivity].
  - destruct s as [|b s].
    + split; [discriminate | intros [post H]; discriminate].
    + rewrite andb_true_iff, Ascii.eqb_eq, IH. split.
      * intros [-> [post ->]]. now exists post.
      * intros [post H]. injection H as -> ->. split; [reflexivity | now exists post].
Qed.

Lemma str_in_occurs (k s : string) :
  Str.str_in k s = true <-> Str.occurs k s.
Proof.
  unfold Str.occurs. induction s as [|c s IH].
  - simpl. rewrite orb_false_r, starts_with_spec. split.
    + intros [post H]. now exists ""%string, post.
    + intros [pre [post H]]. destruct pre; [now exists post | discriminate].
  - cbn [Str.str_in]. rewrite orb_true_iff, starts_with_spec, IH. split.
    + intros [[post H] | [pre [post H]]].
      * now exists ""%string, post.
      * exists (String c pre), post. simpl. now rewrite H.
    + intros [pre [post H]]. destruct pre as [|d pre]; simpl in H.
      * left. now exists post.
      * right. injection H as _ H. now exists pre, post.
Qed.

Lemma str_in_not_occurs (k s : string) :
  Str.str_in k s = false <-> ~ Str.occurs k s.
Proof.
  rewrite <- str_in_occurs. destruct (Str.str_in k s); split; intros H;
    try reflexivity; try discriminate; try (intros H'; discriminate).
  now destruct H.
Qed.

Lemma has_char_app (c : ascii) (s t : string) :
  Str.has_char c (s ++ t) = Str.has_char c s || Str.has_char c t.
Proof.
  induction s as [|d s IH]; simpl; [reflexivity|].
  now rewrite IH, orb_assoc.
Qed.

(** A character of a substring is a character of the string. *)
Lemma occurs_has_char (c : ascii) (k s : string) :
  Str.occurs k s -> Str.has_char c k = true -> Str.has_char c s = true.
Proof.
  intros [pre [post ->]] H.
  now rewrite !has_char_app, H, orb_true_r.
Qed.

(** [lower] leaves no capital [V] behind. *)
Lemma lower_char_not_V (c : ascii) : Ascii.eqb "V" (Str.lower_char c) = false.
Proof.
  destruct c as [[] [] [] [] [] [] [] []]; reflexivity.
Qed.

Lemma lower_no_V (s : string) : Str.has_char "V" (Str.lower s) = false.
Proof.
  induction s as [|c s IH]; [reflexivity|].
  cbn [Str.lower Str.has_char].
  now rewrite lower_char_not_V, IH.
Qed.

(** ** The two loops of the categorizer *)

Lemma any_keyword_true (keywords : list string) (s : string) :
  any_keyword keywords s = true <->
  exists kw, In kw keywords /\ Str.occurs kw s.
Proof.
  induction keywords as [|k rest IH]; simpl.
  - split; [discriminate | intros [kw [[] _]]].
  - destruct (Str.str_in k s) eqn:E.
    + split; [intros _ | reflexivity].
      exists k. split; [now left | now apply str_in_occurs].
    + rewrite IH. split.
      * intros [kw [Hin Hocc]]. exists kw. split; [now right | assumption].
      * intros [kw [[<- | Hin] Hocc]].
        -- apply str_in_occurs in Hocc. congruence.
        -- now exists kw.
Qed.

Lemma any_keyword_false (keywords : list string) (s : string) :
  any_keyword keywords s = false <->
  forall kw, In kw keywords -> ~ Str.occurs kw s.
Proof.
  split.
  - intros H kw Hin Hocc.
    assert (any_keyword keywords s = true) by (apply any_keyword_true; eauto).
    congruence.
  - intros H. destruct (any_keyword keywords s) eqn:E; [|reflexivity].
    apply any_keyword_true in E. destruct E as [kw [Hin Hocc]].
    now destruct (H kw Hin).
Qed.

(** The scan passes over a prefix of the table none of whose keywords
    occurs. *)
Lemma scan_categories_skip (pre rest : list (string * list string)) (s : string) :
  (forall c kws kw, In (c, kws) pre -> In kw kws -> ~ Str.occurs kw s) ->
  scan_categories (pre ++ rest) s = scan_categories rest s.
Proof.
  induction pre as [|[c kws] pre IH]; intros H; simpl; [reflexivity|].
  assert (E : any_keyword kws s = false).
  { apply any_keyword_false. intros kw Hin. apply (H c kws kw); [now left | assumption]. }
  rewrite E. apply IH. intros c' kws' kw Hin. apply (H c' kws' kw). now right.
Qed.

(** A category the scan returns is an entry of the table one of whose
    keywords occurs. *)
Lemma scan_categories_some (table : list (string * list string)) (s c : string) :
  scan_categories table s = Some c ->
  exists kws, In (c, kws) table /\ any_keyword kws s = true.
Proof.
  induction table as [|[c' kws] table IH]; simpl; [discriminate|].
  destruct (any_keyword kws s) eqn:E.
  - intros [= <-]. exists kws. split; [now left | assumption].
  - intros H. destruct (IH H) as [kws' [Hin Hk]]. exists kws'. split; [now right | assumption].
Qed.

(** *** C1 *)

(** C1. The categorizer goes through the categories in the order of the
    table and returns the first one a keyword of which occurs in the
    lower-cased details: whenever no keyword of the categories declared
    before [category] occurs and some keyword of [category] does, the result
    is [category].  In particular [ushodaya] is listed under both
    [Food and Dining] and [Groceries], the former is declared first, and
    details in which [ushodaya] occurs are categorised [Food and Dining]. *)
Theorem categorize_first_match (details tags : string) :
  (forall pre category keywords post,
      categories_keywords = pre ++ (category, keywords) :: post ->
      (forall c kws kw, In (c, kws) pre -> In kw kws ->
                        ~ Str.occurs kw (Str.lower details)) ->
      (exists kw, In kw keywords /\ Str.occurs kw (Str.lower details)) ->
      categorize_transaction details tags = category)
  /\ (exists food groceries post,
        categories_keywords =
          ("Food and Dining", food) :: ("Groceries", groceries) :: post
        /\ In "ushodaya" food /\ In "ushodaya" groceries)
  /\ (Str.occurs "ushodaya" (Str.lower details) ->
      categorize_transaction details tags = "Food and Dining").
Proof.
  assert (G : forall pre category keywords post,
      categories_keywords = pre ++ (category, keywords) :: post ->
      (forall c kws kw, In (c, kws) pre -> In kw kws ->
                        ~ Str.occurs kw (Str.lower details)) ->
      (exists kw, In kw keywords /\ Str.occurs kw (Str.lower details)) ->
      categorize_transaction details tags = category).
  { intros pre category keywords post Htab Hpre Hkw.
    unfold categorize_transaction, categorize_with.
    rewrite Htab, (scan_categories_skip _ _ _ Hpre). simpl.
    apply any_keyword_true in Hkw. now rewrite Hkw. }
  split; [exact G|]. split.
  - do 3 eexists. split; [reflexivity|]. simpl. split; tauto.
  - intros Hocc.
    apply (G [] "Food and Dining" (snd (hd ("", []) categories_keywords))
             (tl categories_keywords)).
    + reflexivity.
    + intros c kws kw [].
    + exists "ushodaya". split; [simpl; tauto | assumption].
Qed.

Lemma categorize_first_match_witness :
  (Str.occurs "ushodaya" (Str.lower "Ushodaya Super Market") /\
   categorize_transaction "Ushodaya Super Market" "" = "Food and Dining")
  /\ categorize_transaction "BigBasket order" "" = "Groceries".
Proof.
  assert (H : Str.occurs "ushodaya" (Str.lower "Ushodaya Super Market"))
    by (apply str_in_occurs; reflexivity).
  split; [split; [exact H|]|].
  - exact (proj2 (proj2 (categorize_first_match "Ushodaya Super Market" "")) H).
  - apply (proj1 (categorize_first_match "BigBasket order" "")
             [hd ("", []) categories_keywords] "Groceries"
             (snd (nth 1 categories_keywords ("", [])))
             (tl (tl categories_keywords))).
    + reflexivity.
    + intros c kws kw [[= <- <-] | []] Hin.
      apply str_in_not_occurs.
      simpl in Hin.
      repeat (destruct Hin as [<- | Hin]; [reflexivity|]). destruct Hin.
    + exists "bigbasket". split; [simpl; tauto | apply str_in_occurs; reflexivity].
Defined.

(** *** C9 *)

(** C9. The categorizer never returns [Loan]: the one keyword of that
    category has a capital letter, which the lower-cased details cannot
    contain, so the keyword never occurs; and the two fallbacks give
    [Money Received] or [Other]. *)
Theorem categorize_never_Loan (details tags : string) :
  (forall kws, In ("Loan", kws) categories_keywords ->
               any_keyword kws (Str.lower details) = false)
  /\ categorize_transaction details tags <> "Loan".
Proof.
  assert (K : forall kws, In ("Loan", kws) categories_keywords ->
               any_keyword kws (Str.lower details) = false).
  { intros kws Hin. simpl in Hin.
    repeat (destruct Hin as [Hin | Hin]; [try discriminate Hin|]);
      [|destruct Hin].
    injection Hin as <-. simpl.
    destruct (Str.str_in "Vatturi Paritosh" (Str.lower details)) eqn:E;
      [|reflexivity].
    apply str_in_occurs in E.
    apply (occurs_has_char "V") in E; [|reflexivity].
    now rewrite lower_no_V in E. }
  split; [exact K|].
  unfold categorize_transaction, categorize_with.
  destruct (scan_categories categories_keywords (Str.lower details)) as [c|] eqn:E.
  - intros ->. apply scan_categories_some in E. destruct E as [kws [Hin Hk]].
    rewrite (K kws Hin) in Hk. discriminate.
  - destruct (Str.str_in "Money Received" tags); discriminate.
Qed.

Lemma categorize_never_Loan_witness :
  categorize_transaction "Paid to Vatturi Paritosh" "Loan" <> "Loan"
  /\ categorize_transaction "Paid to Vatturi Paritosh" "Loan" = "Other".
Proof.
  split; [|reflexivity].
  exact (proj2 (categorize_never_Loan "Paid to Vatturi Paritosh" "Loan")).
Defined.

Lemma scan_categories_none (table : list (string * list string)) (s : string) :
  scan_categories table s = None <->
  (forall c kws kw, In (c, kws) table -> In kw kws -> ~ Str.occurs kw s).
Proof.
  split.
  - intros H c kws kw Hin Hkw Hocc.
    induction table as [|[c' kws'] table IH]; simpl in *; [assumption|].
    destruct (any_keyword kws' s) eqn:E; [discriminate|].
    destruct Hin as [[= -> ->] | Hin]; [|now apply IH].
    apply (proj1 (any_keyword_false kws s) E kw Hkw Hocc).
  - intros H. rewrite <- (app_nil_r table).
    now rewrite (scan_categories_skip table [] s H).
Qed.

(** ** The fallback of the categorizer *)

(** When no keyword occurs, the result is decided by the [tags] argument. *)
Lemma categorize_fallback (details tags : string) :
  scan_categories categories_keywords (Str.lower details) = None ->
  categorize_transaction details tags =
    if Str.str_in "Money Received" tags then "Money Received" else "Other".
Proof.
  intros H. unfold categorize_transaction, categorize_with. now rewrite H.
Qed.

(** *** C2 *)




(** ** Loading *)

Lemma occurs_refl (k : string) : Str.occurs k k.
Proof.
  exists ""%string, ""%string. simpl.
  induction k as [|c k IH]; simpl; [reflexivity | now rewrite <- IH].
Qed.

Lemma string_app_assoc (a b c : string) :
  ((a ++ b) ++ c = a ++ b ++ c)%string.
Proof.
  induction a as [|x a IH]; simpl; [reflexivity | now rewrite IH].
Qed.

Lemma occurs_app_r (k a s : string) :
  Str.occurs k s -> Str.occurs k (a ++ s)%string.
Proof.
  intros [pre [post ->]]. exists (a ++ pre)%string, post.
  now rewrite string_app_assoc.
Qed.

Lemma occurs_app_l (k s b : string) :
  Str.occurs k s -> Str.occurs k (s ++ b)%string.
Proof.
  intros [pre [post ->]]. exists pre, (post ++ b)%string.
  now rewrite !string_app_assoc.
Qed.

(** Every joined item occurs in the joined text. *)
Lemma join_occurs (sep x : string) (l : list string) :
  In x l -> Str.occurs x (Str.join sep l).
Proof.
  induction l as [|y l IH]; intros Hin; [destruct Hin|].
  destruct l as [|z l].
  - destruct Hin as [<- | []]. apply occurs_refl.
  - change (Str.join sep (y :: z :: l))
      with (y ++ sep ++ Str.join sep (z :: l))%string.
    destruct Hin as [<- | Hin].
    + apply occurs_app_l, occurs_refl.
    + now apply occurs_app_r, occurs_app_r, IH.
Qed.

Lemma column_none (name : string) (df : frame) :
  column name df = None <-> in_columns name df = false.
Proof.
  unfold in_columns, columns. induction df as [|[n cells] df IH]; simpl.
  - tauto.
  - destruct (String.eqb name n); simpl; [split; discriminate | exact IH].
Qed.

(** *** C3 *)

(** C3, as stated, fails: for a file with neither [Date] nor [Amount], the
    one message shown names [Date] only. *)
Lemma load_date_and_amount_missing_counterexample :
  let df := [("Transaction Details", ["Swiggy order"]); ("Tags", ["food"])] in
  in_columns "Date" df = false /\ In "Amount" (missing_cols df)
  /\ exists message,
       (forall to_datetime, load to_datetime df = Stopped message)
       /\ ~ Str.occurs "Amount" message.
Proof.
  cbv zeta. split; [reflexivity|]. split; [simpl; tauto|].
  exists date_missing_message. split; [reflexivity|].
  apply str_in_not_occurs. reflexivity.
Qed.

(** C3, amended. A file without a [Date] column is refused with the message
    that names [Date] and no other column.  A file whose [Date] column is
    present and parses, and which lacks at least one of
    [Transaction Details], [Amount] and [Tags], is refused with one message
    in which every one of these three that is missing occurs. *)
Theorem load_missing_columns
    (to_datetime : list string -> option (list Z)) (df : frame) :
  (in_columns "Date" df = false ->
   load to_datetime df = Stopped date_missing_message)
  /\ (forall cells dates,
        column "Date" df = Some cells -> to_datetime cells = Some dates ->
        (exists col, In col required_columns /\ in_columns col df = false) ->
        exists message,
          load to_datetime df = Stopped message
          /\ forall col, In col required_columns ->
                         in_columns col df = false ->
                         Str.occurs col message).
Proof.
  split.
  - intros H. apply column_none in H. unfold load. now rewrite H.
  - intros cells dates Hc Hd [col [Hreq Hmiss]].
    assert (Hin : forall c, In c required_columns -> in_columns c df = false ->
                            In c (missing_cols df)).
    { intros c Hr Hm. unfold missing_cols. apply filter_In.
      split; [assumption | now rewrite Hm]. }
    exists (missing_message (missing_cols df)). split.
    + unfold load. rewrite Hc, Hd.
      destruct (missing_cols df) eqn:E; [|reflexivity].
      destruct (Hin col Hreq Hmiss).
    + intros c Hr Hm. unfold missing_message.
      apply occurs_app_r, join_occurs, Hin; assumption.
Qed.

Lemma load_missing_columns_witness :
  let df := [("Date", ["01/01/2024"]); ("Tags", ["food"])] in
  in_columns "Amount" df = false
  /\ exists message,
       load Dmy.to_datetime df = Stopped message
       /\ Str.occurs "Transaction Details" message
       /\ Str.occurs "Amount" message.
Proof.
  cbv zeta. split; [reflexivity|].
  destruct (proj2 (load_missing_columns Dmy.to_datetime
                     [("Date", ["01/01/2024"]); ("Tags", ["food"])])
              ["01/01/2024"] [19723%Z] eq_refl eq_refl)
    as [message [Hl Hn]].
  - exists "Amount". split; [simpl; tauto | reflexivity].
  - exists message. split; [exact Hl|].
    split; apply Hn; simpl; tauto || reflexivity.
Defined.

(** ** Tag cleaning *)

Lemma strip_marker_other (b : bool) (c : ascii) (t : string) :
  Str.starts_with "#??" (String c t) = false ->
  b && Str.is_space c = false ->
  strip_marker b (String c t) = String c (strip_marker false t).
Proof.
  intros H Hb. cbn [strip_marker]. rewrite Hb.
  destruct (Ascii.eqb "#" c) eqn:E1.
  - apply Ascii.eqb_eq in E1. subst c.
    destruct t as [|c1 t]; [reflexivity|].
    destruct (Ascii.eqb "?" c1) eqn:E2.
    + apply Ascii.eqb_eq in E2. subst c1.
      destruct t as [|c2 t]; [reflexivity|].
      destruct (Ascii.eqb "?" c2) eqn:E3.
      * apply Ascii.eqb_eq in E3. subst c2. discriminate H.
      * destruct c2 as [[] [] [] [] [] [] [] []]; try reflexivity. discriminate E3.
    + destruct c1 as [[] [] [] [] [] [] [] []]; try reflexivity. discriminate E2.
  - destruct c as [[] [] [] [] [] [] [] []]; try reflexivity. discriminate E1.
Qed.

Lemma strip_marker_match (b : bool) (u : string) :
  strip_marker b (String "#" (String "?" (String "?" u))) = strip_marker true u.
Proof. destruct b; reflexivity. Qed.

Lemma starts_with_marker (s : string) :
  Str.starts_with "#??" s = true ->
  exists u, s = String "#" (String "?" (String "?" u)).
Proof.
  intros H. apply starts_with_spec in H. destruct H as [u ->]. now exists u.
Qed.

(** No marker: the scan copies the text. *)
Lemma strip_marker_clean (s : string) :
  Str.str_in "#??" s = false -> strip_marker false s = s.
Proof.
  induction s as [|c t IH]; [reflexivity|].
  cbn [Str.str_in]. intros H. apply orb_false_iff in H. destruct H as [H1 H2].
  rewrite strip_marker_other by (assumption || reflexivity).
  now rewrite IH.
Qed.

Lemma strip_marker_length_aux (n : nat) :
  forall s b, (String.length s <= n)%nat ->
              (String.length (strip_marker b s) <= String.length s)%nat.
Proof.
  induction n as [|n IH]; intros s b Hn.
  - destruct s; [simpl; lia | simpl in Hn; lia].
  - destruct s as [|c t]; [simpl; lia|].
    cbn [String.length] in Hn.
    destruct (b && Str.is_space c) eqn:Eb.
    + cbn [strip_marker]. rewrite Eb. specialize (IH t true). cbn [String.length]. lia.
    + destruct (Str.starts_with "#??" (String c t)) eqn:Es.
      * destruct (starts_with_marker _ Es) as [u Hu]. rewrite Hu.
        rewrite strip_marker_match. injection Hu as -> ->.
        cbn [String.length] in *. specialize (IH u true). lia.
      * rewrite strip_marker_other by assumption.
        cbn [String.length]. specialize (IH t false). lia.
Qed.

Lemma strip_marker_length (b : bool) (s : string) :
  (String.length (strip_marker b s) <= String.length s)%nat.
Proof. now apply (strip_marker_length_aux (String.length s)). Qed.

(** A marker: the scan gives a shorter text. *)
Lemma strip_marker_shorter (s : string) :
  Str.str_in "#??" s = true ->
  (String.length (strip_marker false s) < String.length s)%nat.
Proof.
  induction s as [|c t IH]; [discriminate|].
  cbn [Str.str_in]. intros H.
  destruct (Str.starts_with "#??" (String c t)) eqn:Es.
  - destruct (starts_with_marker _ Es) as [u Hu]. rewrite Hu.
    rewrite strip_marker_match. cbn [String.length].
    pose proof (strip_marker_length true u). lia.
  - simpl in H. rewrite strip_marker_other by (assumption || reflexivity).
    cbn [String.length]. specialize (IH H). lia.
Qed.

Lemma clean_tags_fixed (s : string) :
  clean_tags s = s <-> ~ Str.occurs "#??" s.
Proof.
  rewrite <- str_in_not_occurs. unfold clean_tags. split.
  - intros H. destruct (Str.str_in "#??" s) eqn:E; [|reflexivity].
    apply strip_marker_shorter in E. rewrite H in E. lia.
  - apply strip_marker_clean.
Qed.

(** *** C4 *)

(** C4, as stated, fails: one pass over [#?#???] deletes the marker in the
    middle and leaves the marker [#??], which a second pass deletes. *)
Lemma clean_tags_twice_counterexample :
  clean_tags "#?#???" = "#??"
  /\ clean_tags (clean_tags "#?#???") <> clean_tags "#?#???".
Proof. split; [reflexivity | discriminate]. Qed.

(** C4, amended. Cleaning changes nothing in a string in which the marker
    does not occur; and cleaning twice equals cleaning once exactly on the
    strings whose cleaned form has no marker left. *)
Theorem clean_tags_idempotent_iff (s : string) :
  (~ Str.occurs "#??" s -> clean_tags s = s)
  /\ (clean_tags (clean_tags s) = clean_tags s <->
      ~ Str.occurs "#??" (clean_tags s)).
Proof.
  split; [apply clean_tags_fixed | apply clean_tags_fixed].
Qed.

Lemma clean_tags_idempotent_iff_witness :
  ~ Str.occurs "#??" "groceries"
  /\ clean_tags "groceries" = "groceries"
  /\ clean_tags (clean_tags "#?? groceries") = clean_tags "#?? groceries".
Proof.
  assert (H : ~ Str.occurs "#??" "groceries")
    by (apply str_in_not_occurs; reflexivity).
  split; [exact H|]. split.
  - exact (proj1 (clean_tags_idempotent_iff "groceries") H).
  - apply (proj2 (clean_tags_idempotent_iff "#?? groceries")).
    apply str_in_not_occurs. reflexivity.
Defined.

(** ** Filters *)

(** *** C5 *)

(** C5, as stated, fails: with an empty selection of categories, a ledger
    of one row and ranges that contain it, the row is selected; and no row
    of it has its category in the empty selection. *)
Lemma empty_selection_counterexample :
  let r := {| idx := 0; Date := 19723; Transaction_Details := "Swiggy order";
              Amount := (-200)%Z; Tags := ""; Category := "Food and Dining" |} in
  isin (Category r) [] = false
  /\ category_filter [] [r] = [r]
  /\ apply_filters 19723 19723 [] ((-200)%Z, (-200)%Z) [r] <> [].
Proof. cbv zeta. repeat split. discriminate. Qed.

(** C5, amended. With an empty selection of categories the category filter
    is skipped: it leaves its input as it is, and the filtered view is the
    one the date and amount filters give.  With a selection that is not
    empty it keeps the rows whose category is selected, in their order. *)
Theorem category_filter_selection (start_date end_date : Z)
    (amount_range : Z * Z) (df : list row) :
  category_filter [] df = df
  /\ apply_filters start_date end_date [] amount_range df =
       amount_filter amount_range (date_filter start_date end_date df)
  /\ (forall r,
        In r (apply_filters start_date end_date [] amount_range df) <->
        In r df
        /\ (start_date <= Date r <= end_date)%Z
        /\ (fst amount_range <= Amount r <= snd amount_range)%Z)
  /\ (forall c selected r,
        In r (category_filter (c :: selected) df) <->
        In r df /\ In (Category r) (c :: selected)).
Proof.
  split; [reflexivity|]. split; [reflexivity|]. split.
  - intros r. unfold apply_filters, amount_filter, category_filter, date_filter.
    rewrite !filter_In, !andb_true_iff, !Z.leb_le. tauto.
  - intros c selected r. unfold category_filter, isin.
    rewrite filter_In, existsb_exists. split.
    + intros [Hin [x [Hx Heq]]]. apply String.eqb_eq in Heq. now subst x.
    + intros [Hin Hc]. split; [assumption|].
      exists (Category r). split; [assumption | apply String.eqb_refl].
Qed.

Lemma category_filter_selection_witness :
  let r := {| idx := 0; Date := 19723; Transaction_Details := "Swiggy order";
              Amount := (-200)%Z; Tags := ""; Category := "Food and Dining" |} in
  In r (apply_filters 19723 19723 [] ((-200)%Z, (-200)%Z) [r])
  /\ ~ In r (category_filter ["Fuel"] [r]).
Proof.
  cbv zeta. split.
  - apply (proj1 (proj2 (proj2 (category_filter_selection
                                   19723 19723 ((-200)%Z, (-200)%Z) _)))).
    split; [left; reflexivity | simpl; lia].
  - intros H.
    apply (proj2 (proj2 (proj2 (category_filter_selection 0 0 (0%Z, 0%Z) _))))
      in H.
    destruct H as [_ [H | []]]. discriminate H.
Defined.

(** ** Totals *)

Lemma total_nonneg (l : list Z) : Forall (fun z => 0 <= z)%Z l -> (0 <= total l)%Z.
Proof.
  induction 1 as [|z l Hz _ IH]; simpl; lia.
Qed.

(** The sum of negative numbers: its absolute value is the sum of theirs. *)
Lemma total_negatives (l : list Z) :
  Forall (fun z => z < 0)%Z l ->
  (total l <= 0)%Z /\ Z.abs (total l) = total (map Z.abs l).
Proof.
  induction 1 as [|z l Hz _ [IH1 IH2]]; simpl; [lia|].
  split; [lia|]. rewrite <- IH2. lia.
Qed.

Lemma filter_map_Amount (p : Z -> bool) (df : list row) :
  map Amount (filter (fun r => p (Amount r)) df) = filter p (map Amount df).
Proof.
  induction df as [|r df IH]; simpl; [reflexivity|].
  destruct (p (Amount r)); simpl; now rewrite IH.
Qed.

Lemma filter_filter_sub {A : Type} (p q : A -> bool) (l : list A) :
  (forall x, p x = true -> q x = true) ->
  filter p (filter q l) = filter p l.
Proof.
  intros H. induction l as [|x l IH]; simpl; [reflexivity|].
  destruct (q x) eqn:Eq; simpl.
  - destruct (p x); now rewrite IH.
  - destruct (p x) eqn:Ep; [|exact IH]. apply H in Ep. congruence.
Qed.

(** *** C7 *)

Lemma negatives_of_view (df : list row) :
  Forall (fun z => z < 0)%Z
         (map Amount (filter (fun r => (Amount r <? 0)%Z) df)).
Proof.
  apply Forall_forall. intros z Hz. apply in_map_iff in Hz.
  destruct Hz as [r [<- Hr]]. apply filter_In in Hr. lia.
Qed.

Lemma credits_cons (r : row) (df : list row) :
  credits (r :: df) =
  ((if (0 <? Amount r)%Z then Amount r else 0) + credits df)%Z.
Proof.
  unfold credits. cbn [filter]. destruct (0 <? Amount r)%Z; reflexivity.
Qed.

Lemma debits_cons (r : row) (df : list row) :
  debits (r :: df) =
  ((if (Amount r <? 0)%Z then Z.abs (Amount r) else 0) + debits df)%Z.
Proof.
  unfold debits. cbn [filter].
  destruct (total_negatives _ (negatives_of_view df)) as [Hle _].
  destruct (Z.ltb_spec (Amount r) 0) as [Hn | Hn]; [|reflexivity].
  cbn [map total fold_right]. fold (total (map Amount
    (filter (fun r0 => (Amount r0 <? 0)%Z) df))). lia.
Qed.



(** ** Corrections *)

(** *** C8 *)

(** C8. A correction whose new category is [Other] is ignored: applying it
    returns the ledger as it was, every field of every row included; a
    batch gives the same ledger with or without its [Other] corrections;
    and a batch of [Other] corrections alone changes nothing. *)
Theorem correction_to_Other_ignored (df : list row) :
  (forall i, apply_edit df (i, "Other") = df)
  /\ (forall edited_uncat,
        update_categories df edited_uncat =
        update_categories df
          (filter (fun e => negb (String.eqb (snd e) "Other")) edited_uncat))
  /\ (forall labels,
        update_categories df (map (fun i => (i, "Other")) labels) = df).
Proof.
  split; [reflexivity|]. split.
  - intros edited_uncat. revert df.
    induction edited_uncat as [|[i c] l IH]; intros df; [reflexivity|].
    unfold update_categories in *. cbn [fold_left filter snd].
    destruct (String.eqb c "Other") eqn:E; cbn [negb fold_left].
    + unfold apply_edit at 2. rewrite E. cbn [negb]. apply IH.
    + apply IH.
  - intros labels. unfold update_categories.
    induction labels as [|i l IH]; [reflexivity | exact IH].
Qed.

Lemma correction_to_Other_ignored_witness :
  let r := {| idx := 3; Date := 19723; Transaction_Details := "xyz";
              Amount := (-40)%Z; Tags := ""; Category := "Other" |} in
  update_categories [r] [(3%nat, "Other")] = [r]
  /\ update_categories [r] [(3%nat, "Other"); (3%nat, "Shopping")] =
      [set_Category "Shopping" r].
Proof.
  cbv zeta. split.
  - exact (proj2 (proj2 (correction_to_Other_ignored _)) [3%nat]).
  - rewrite (proj1 (proj2 (correction_to_Other_ignored _))). reflexivity.
Defined.

(** ** Daily sums *)

Lemma fold_min_spec (d : Z) (ds : list Z) :
  In (fold_right Z.min d ds) (d :: ds)
  /\ forall x, In x (d :: ds) -> (fold_right Z.min d ds <= x)%Z.
Proof.
  induction ds as [|y ds [IHin IHle]]; simpl.
  - split; [now left | intros x [<- | []]; lia].
  - split.
    + destruct (Z.min_spec y (fold_right Z.min d ds)) as [[_ ->] | [_ ->]].
      * right. now left.
      * simpl in IHin. tauto.
    + intros x [<- | [<- | Hx]].
      * specialize (IHle d (or_introl eq_refl)). lia.
      * lia.
      * specialize (IHle x (or_intror Hx)). lia.
Qed.

Lemma fold_max_spec (d : Z) (ds : list Z) :
  In (fold_right Z.max d ds) (d :: ds)
  /\ forall x, In x (d :: ds) -> (x <= fold_right Z.max d ds)%Z.
Proof.
  induction ds as [|y ds [IHin IHle]]; simpl.
  - split; [now left | intros x [<- | []]; lia].
  - split.
    + destruct (Z.max_spec y (fold_right Z.max d ds)) as [[_ ->] | [_ ->]].
      * simpl in IHin. tauto.
      * right. now left.
    + intros x [<- | [<- | Hx]].
      * specialize (IHle d (or_introl eq_refl)). lia.
      * lia.
      * specialize (IHle x (or_intror Hx)). lia.
Qed.

Lemma day_range_length (lo hi : Z) :
  List.length (day_range lo hi) = Z.to_nat (hi - lo + 1).
Proof. unfold day_range. now rewrite length_map, length_seq. Qed.

Lemma day_range_nth (lo hi : Z) (k : nat) :
  (k < Z.to_nat (hi - lo + 1))%nat ->
  nth_error (day_range lo hi) k = Some (lo + Z.of_nat k)%Z.
Proof.
  intros H. unfold day_range.
  rewrite nth_error_map, nth_error_nth' with (d := 0%nat)
    by (now rewrite length_seq).
  now rewrite seq_nth.
Qed.

(** The frame of the series: from the least to the greatest date. *)
Lemma daily_sum_range (exp : list exp_row) (lo hi : Z) :
  (exists e, In e exp /\ exp_date e = lo) ->
  (forall e, In e exp -> (lo <= exp_date e)%Z) ->
  (exists e, In e exp /\ exp_date e = hi) ->
  (forall e, In e exp -> (exp_date e <= hi)%Z) ->
  daily_sum exp = map (fun day => (day, day_total exp day)) (day_range lo hi).
Proof.
  intros [el [Hel Hlo]] Hmin [eh [Heh Hhi]] Hmax.
  unfold daily_sum.
  destruct (map exp_date exp) as [|d ds] eqn:E.
  - destruct exp; [destruct Hel | discriminate].
  - destruct (fold_min_spec d ds) as [Hin1 Hle1].
    destruct (fold_max_spec d ds) as [Hin2 Hle2].
    rewrite <- E in Hin1, Hle1, Hin2, Hle2.
    assert (Hd : forall e, In e exp -> In (exp_date e) (map exp_date exp))
      by (intros e; apply in_map).
    apply in_map_iff in Hin1. destruct Hin1 as [e1 [He1 Hi1]].
    apply in_map_iff in Hin2. destruct Hin2 as [e2 [He2 Hi2]].
    assert (fold_right Z.min d ds = lo).
    { pose proof (Hmin e1 Hi1). pose proof (Hle1 _ (Hd el Hel)). lia. }
    assert (fold_right Z.max d ds = hi).
    { pose proof (Hmax e2 Hi2). pose proof (Hle2 _ (Hd eh Heh)). lia. }
    cbv zeta. congruence.
Qed.

Lemma day_total_empty (exp : list exp_row) (day : Z) :
  (forall e, In e exp -> exp_date e <> day) -> day_total exp day = 0%Z.
Proof.
  intros H. unfold day_total.
  induction exp as [|e exp IH]; [reflexivity|]. simpl.
  destruct (Z.eqb_spec (exp_date e) day) as [Heq | _].
  - now destruct (H e (or_introl eq_refl)).
  - apply IH. intros e' He'. apply H. now right.
Qed.

(** *** C10 *)

(** C10. For a filtered view with a debit row, let [lo] and [hi] be the
    earliest and the latest date of its debit rows.  The daily series has
    [hi - lo + 1] entries; its entry number [k] is the day [lo + k] with the
    sum of the [Abs Amount] of the debit rows of that day: one entry for
    every day from [lo] to [hi], in ascending order; and a day of the span
    on which no debit row falls is present with sum 0. *)
Theorem daily_sum_every_day (df_filtered : list row) (lo hi : Z) :
  let exp := exp_df df_filtered in
  (exists e, In e exp /\ exp_date e = lo) ->
  (forall e, In e exp -> (lo <= exp_date e)%Z) ->
  (exists e, In e exp /\ exp_date e = hi) ->
  (forall e, In e exp -> (exp_date e <= hi)%Z) ->
  List.length (daily_sum exp) = Z.to_nat (hi - lo + 1)
  /\ (forall k, (k < Z.to_nat (hi - lo + 1))%nat ->
        nth_error (daily_sum exp) k =
          Some ((lo + Z.of_nat k)%Z,
                total (map Abs_Amount
                         (filter (fun e => (exp_date e =? lo + Z.of_nat k)%Z)
                                 exp))))
  /\ (forall k, (k < Z.to_nat (hi - lo + 1))%nat ->
        (forall e, In e exp -> exp_date e <> (lo + Z.of_nat k)%Z) ->
        nth_error (daily_sum exp) k = Some ((lo + Z.of_nat k)%Z, 0%Z)).
Proof.
  intros exp Hlo Hmin Hhi Hmax.
  rewrite (daily_sum_range exp lo hi Hlo Hmin Hhi Hmax).
  assert (N : forall k, (k < Z.to_nat (hi - lo + 1))%nat ->
            nth_error (map (fun day => (day, day_total exp day))
                           (day_range lo hi)) k =
            Some ((lo + Z.of_nat k)%Z, day_total exp (lo + Z.of_nat k))).
  { intros k Hk. now rewrite nth_error_map, day_range_nth. }
  split; [now rewrite length_map, day_range_length|]. split.
  - intros k Hk. now rewrite N.
  - intros k Hk Hnone. now rewrite N, day_total_empty.
Qed.

Lemma daily_sum_every_day_witness :
  let df :=
    [ {| idx := 0; Date := 10; Transaction_Details := "Swiggy order";
         Amount := (-5)%Z; Tags := ""; Category := "Food and Dining" |};
      {| idx := 1; Date := 11; Transaction_Details := "Salary";
         Amount := 90%Z; Tags := ""; Category := "Other" |};
      {| idx := 2; Date := 12; Transaction_Details := "Petrol";
         Amount := (-7)%Z; Tags := ""; Category := "Fuel" |} ] in
  daily_sum (exp_df df) = [(10, 5); (11, 0); (12, 7)]%Z
  /\ nth_error (daily_sum (exp_df df)) 1 = Some (11, 0)%Z.
Proof.
  cbv zeta. split; [reflexivity|].
  refine (proj2 (proj2 (daily_sum_every_day _ 10 12 _ _ _ _)) 1%nat _ _).
  - eexists. split; [left; reflexivity | reflexivity].
  - intros e [<- | [<- | []]]; vm_compute; discriminate.
  - eexists. split; [right; left; reflexivity | reflexivity].
  - intros e [<- | [<- | []]]; vm_compute; discriminate.
  - vm_compute. lia.
  - intros e [<- | [<- | []]]; vm_compute; discriminate.
Defined.

(** ** Top debits *)

Lemma insert_desc_perm (e : exp_row) (l : list exp_row) :
  Permutation (e :: l) (insert_desc e l).
Proof.
  induction l as [|x l IH]; simpl; [apply Permutation_refl|].
  destruct (Abs_Amount x <=? Abs_Amount e)%Z.
  - apply Permutation_refl.
  - eapply perm_trans; [apply perm_swap | now apply perm_skip].
Qed.

Lemma insert_desc_sorted (e : exp_row) (l : list exp_row) :
  StronglySorted desc l -> StronglySorted desc (insert_desc e l).
Proof.
  induction 1 as [|x l Hs IH Hx]; simpl.
  - repeat constructor.
  - destruct (Z.leb_spec (Abs_Amount x) (Abs_Amount e)) as [Hle | Hlt].
    + constructor; [now constructor|].
      constructor; [exact Hle|].
      rewrite Forall_forall in *. intros y Hy. specialize (Hx y Hy).
      unfold desc in *. lia.
    + constructor; [exact IH|].
      rewrite Forall_forall in *. intros y Hy.
      apply (Permutation_in _ (Permutation_sym (insert_desc_perm e l))) in Hy.
      destruct Hy as [<- | Hy]; [unfold desc; lia | now apply Hx].
Qed.

(** The sort has a result on every frame. *)
Lemma stable_sort_desc_sorts (exp : list exp_row) :
  sort_values_desc exp (stable_sort_desc exp).
Proof.
  unfold sort_values_desc, stable_sort_desc.
  induction exp as [|e exp [IHp IHs]]; simpl.
  - split; constructor.
  - split; [|now apply insert_desc_sorted].
    eapply perm_trans; [apply perm_skip, IHp | apply insert_desc_perm].
Qed.

Lemma sorted_app_inv {A : Type} (R : A -> A -> Prop) (l1 l2 : list A) :
  StronglySorted R (l1 ++ l2) ->
  StronglySorted R l1 /\ forall a b, In a l1 -> In b l2 -> R a b.
Proof.
  induction l1 as [|x l1 IH]; simpl; intros H.
  - split; [constructor | intros a b []].
  - apply StronglySorted_inv in H. destruct H as [Hs Hx].
    destruct (IH Hs) as [IH1 IH2]. split.
    + constructor; [exact IH1|].
      apply Forall_forall. intros y Hy. rewrite Forall_forall in Hx.
      apply Hx, in_or_app. now left.
    + intros a b [<- | Ha] Hb.
      * rewrite Forall_forall in Hx. apply Hx, in_or_app. now right.
      * now apply IH2.
Qed.

(** Every row of [exp_df] is a debit row with its amount negated. *)
Lemma exp_df_debits (df_filtered : list row) (e : exp_row) :
  In e (exp_df df_filtered) ->
  In (base e) df_filtered /\ (Amount (base e) < 0)%Z
  /\ Abs_Amount e = (- Amount (base e))%Z.
Proof.
  unfold exp_df. rewrite in_map_iff. intros [r [<- Hr]].
  apply filter_In in Hr. simpl. destruct Hr as [Hr Hn]. repeat split; [exact Hr | lia].
Qed.

(** *** C6 *)

Lemma permutation_by_count (l l' : list nat) :
  forallb (fun x => (count_occ Nat.eq_dec l x =? count_occ Nat.eq_dec l' x)%nat)
          (l ++ l') = true ->
  Permutation l l'.
Proof.
  intros H. apply (Permutation_count_occ Nat.eq_dec). intros x.
  destruct (in_dec Nat.eq_dec x (l ++ l')) as [Hin | Hout].
  - rewrite forallb_forall in H. now apply Nat.eqb_eq, H.
  - assert (H1 : ~ In x l) by (intros Hx; apply Hout, in_or_app; now left).
    assert (H2 : ~ In x l') by (intros Hx; apply Hout, in_or_app; now right).
    apply (count_occ_not_In Nat.eq_dec) in H1, H2. congruence.
Qed.

(** C6, as stated, fails: for eighteen debit rows of one and the same
    amount, labelled 0 to 17 in the order of the view, the sort of line 159
    partitions the rows once and the ten rows selected are, in this order,
    those of labels 0, 1, 16, 15, 14, 13, 12, 11, 10 and 9: their ties are
    not in row order.  The rows selected are among the results that the
    relation [top_tx] admits. *)
Lemma top_tx_ties_counterexample :
  let df :=
    map (fun i => {| idx := i; Date := 19723; Transaction_Details := "upi";
                     Amount := (-5)%Z; Tags := ""; Category := "Other" |})
        (seq 0 18) in
  exists out,
    top_tx_quicksort (exp_df df) = Some out
    /\ map (fun e => idx (base e)) out = [0; 1; 16; 15; 14; 13; 12; 11; 10; 9]%nat
    /\ top_tx (exp_df df) out
    /\ ~ ties_in_row_order out.
Proof.
  cbv zeta. eexists. split; [vm_compute; reflexivity|].
  split; [reflexivity|]. split.
  - exists (map (fun i => {| base := {| idx := i; Date := 19723;
                                        Transaction_Details := "upi";
                                        Amount := (-5)%Z; Tags := "";
                                        Category := "Other" |};
                             Abs_Amount := 5 |})
                [0; 1; 16; 15; 14; 13; 12; 11; 10; 9; 8; 7; 6; 5; 4; 3; 2; 17]%nat).
    split; [split|reflexivity].
    + change (exp_df _) with
        (map (fun i => {| base := {| idx := i; Date := 19723;
                                     Transaction_Details := "upi";
                                     Amount := (-5)%Z; Tags := "";
                                     Category := "Other" |};
                          Abs_Amount := 5 |}) (seq 0 18)).
      apply Permutation_map, permutation_by_count. reflexivity.
    + cbn [map]. repeat constructor; unfold desc; cbn [Abs_Amount]; lia.
  - intros H.
    specialize (H 2%nat 3%nat _ _ (Nat.lt_succ_diag_r 2) eq_refl eq_refl eq_refl).
    cbn in H. lia.
Qed.

(** C6, amended. For every filtered view and every [n] (10 in the
    dashboard) the selection has a result, and every result [out] has the
    lesser of [n] and the number of debit rows as its length, is in
    descending order of [Abs Amount], consists of debit rows of the view
    with their amounts negated, and holds largest amounts: the debit rows
    are [out] and a remainder none of whose amounts exceeds an amount of
    [out].  With at most [n] debit rows, [out] holds all of them.  The
    order among rows of equal [Abs Amount] is not determined. *)
Theorem top_n_largest_descending (df_filtered : list row) (n : nat) :
  let exp := exp_df df_filtered in
  (exists out, top_n n exp out)
  /\ forall out, top_n n exp out ->
       List.length out = Nat.min n (List.length exp)
       /\ StronglySorted desc out
       /\ (forall e, In e out ->
             In (base e) df_filtered /\ (Amount (base e) < 0)%Z
             /\ Abs_Amount e = (- Amount (base e))%Z)
       /\ (exists rest,
             Permutation exp (out ++ rest)
             /\ forall a b, In a out -> In b rest ->
                            (Abs_Amount b <= Abs_Amount a)%Z)
       /\ ((List.length exp <= n)%nat -> Permutation exp out).
Proof.
  intros exp. split.
  - exists (head n (stable_sort_desc exp)), (stable_sort_desc exp).
    split; [apply stable_sort_desc_sorts | reflexivity].
  - intros out [sorted [[Hp Hs] ->]]. unfold head.
    rewrite <- (firstn_skipn n sorted) in Hs.
    destruct (sorted_app_inv _ _ _ Hs) as [Hs1 Hs2].
    split; [now rewrite length_firstn, (Permutation_length Hp)|].
    split; [exact Hs1|]. split; [|split].
    + intros e He. apply exp_df_debits.
      apply (Permutation_in _ (Permutation_sym Hp)).
      rewrite <- (firstn_skipn n sorted). apply in_or_app. now left.
    + exists (skipn n sorted). split; [now rewrite firstn_skipn|].
      intros a b Ha Hb. exact (Hs2 a b Ha Hb).
    + intros Hn. rewrite (Permutation_length Hp) in Hn.
      now rewrite firstn_all2.
Qed.

Lemma top_n_largest_descending_witness :
  let r0 := {| idx := 0; Date := 10; Transaction_Details := "Swiggy order";
               Amount := (-5)%Z; Tags := ""; Category := "Food and Dining" |} in
  let r1 := {| idx := 1; Date := 11; Transaction_Details := "Petrol";
               Amount := (-9)%Z; Tags := ""; Category := "Fuel" |} in
  let out := [ {| base := r1; Abs_Amount := 9 |};
               {| base := r0; Abs_Amount := 5 |} ] in
  top_n 10 (exp_df [r0; r1]) out
  /\ List.length out = 2%nat /\ StronglySorted desc out.
Proof.
  cbv zeta.
  match goal with |- ?T /\ _ => assert (H : T) end.
  { eexists. split; [split|].
    - apply perm_swap.
    - repeat constructor; unfold desc; simpl; lia.
    - reflexivity. }
  split; [exact H|].
  destruct (proj2 (top_n_largest_descending _ 10) _ H) as [Hl [Hs _]].
  split; [exact Hl | exact Hs].
Defined.

(** * Further properties *)

(** ** The categorizer *)

(** The labels the categorizer can give: the categories of the table and
    [Other]. *)
Lemma in_table_category (table : list (string * list string)) (c : string)
    (kws : list string) :
  In (c, kws) table -> In c (map fst table).
Proof. intros H. now apply (in_map fst) in H. Qed.

Lemma categorize_cells_text (details tags : string) :
  Cells.categorize_transaction (Cells.Text details) (Cells.Text tags) =
  Cells.Returns (categorize_transaction details tags).
Proof.
  unfold Cells.categorize_transaction, categorize_transaction, categorize_with.
  cbv zeta. cbn [Cells.str].
  destruct (scan_categories categories_keywords (Str.lower details));
    reflexivity.
Qed.

(** X1. A call of the categorizer either returns a category of the keyword
    table or [Other], or raises [TypeError]; it raises exactly when no
    keyword occurs in the lower-cased details and the [Tags] cell is
    blank.  On two text cells it returns. *)
Theorem categorize_closed_set (details tags : Cells.cell) :
  (forall c, Cells.categorize_transaction details tags = Cells.Returns c ->
             In c (map fst categories_keywords ++ ["Other"]))
  /\ (forall e, Cells.categorize_transaction details tags = Cells.Raises e <->
                e = "TypeError" /\ tags = Cells.Blank
                /\ forall c kws kw, In (c, kws) categories_keywords ->
                      In kw kws ->
                      ~ Str.occurs kw (Str.lower (Cells.str details)))
  /\ (forall d t, details = Cells.Text d -> tags = Cells.Text t ->
        Cells.categorize_transaction details tags =
          Cells.Returns (categorize_transaction d t)).
Proof.
  split; [|split].
  - intros c. unfold Cells.categorize_transaction. cbv zeta.
    destruct (scan_categories categories_keywords
                (Str.lower (Cells.str details))) as [c'|] eqn:E.
    + intros [= <-]. apply scan_categories_some in E.
      destruct E as [kws [Hin _]].
      apply in_or_app. left. exact (in_table_category _ _ _ Hin).
    + destruct tags as [t|]; [|discriminate].
      intros [= <-]. destruct (Str.str_in "Money Received" t).
      * apply in_or_app. left. simpl. tauto.
      * apply in_or_app. right. now left.
  - intros e. rewrite <- scan_categories_none.
    unfold Cells.categorize_transaction. cbv zeta.
    destruct (scan_categories categories_keywords
                (Str.lower (Cells.str details))) as [c'|].
    + split; [discriminate | intros [_ [_ H]]; discriminate].
    + destruct tags as [t|].
      * split; [discriminate | intros [_ [H _]]; discriminate].
      * split; [intros [= <-]; auto | intros [-> _]; reflexivity].
  - intros d t -> ->. apply categorize_cells_text.
Qed.

Lemma categorize_closed_set_witness :
  Cells.categorize_transaction (Cells.Text "Swiggy order") Cells.Blank =
    Cells.Returns "Food and Dining"
  /\ In "Food and Dining" (map fst categories_keywords ++ ["Other"])
  /\ Cells.categorize_transaction Cells.Blank Cells.Blank =
     Cells.Raises "TypeError".
Proof.
  split; [reflexivity|]. split.
  - apply (proj1 (categorize_closed_set (Cells.Text "Swiggy order")
                    Cells.Blank) "Food and Dining" eq_refl).
  - apply (proj2 (proj1 (proj2 (categorize_closed_set Cells.Blank Cells.Blank))
                    "TypeError")).
    split; [reflexivity|]. split; [reflexivity|].
    apply scan_categories_none. reflexivity.
Defined.

Lemma lower_char_idempotent (c : ascii) :
  Str.lower_char (Str.lower_char c) = Str.lower_char c.
Proof. destruct c as [[] [] [] [] [] [] [] []]; reflexivity. Qed.

Lemma lower_idempotent (s : string) : Str.lower (Str.lower s) = Str.lower s.
Proof.
  induction s as [|c s IH]; [reflexivity|].
  cbn [Str.lower]. now rewrite lower_char_idempotent, IH.
Qed.

(** X2. The case of the details does not matter: two details that differ
    only in the case of their letters get the same category, and so do
    details and their lower-cased form. *)
Theorem categorize_ignores_case (details details' tags : string) :
  (Str.lower details = Str.lower details' ->
   categorize_transaction details tags = categorize_transaction details' tags)
  /\ categorize_transaction (Str.lower details) tags =
     categorize_transaction details tags.
Proof.
  unfold categorize_transaction, categorize_with. cbv zeta. split.
  - now intros ->.
  - now rewrite lower_idempotent.
Qed.

Lemma categorize_ignores_case_witness :
  Str.lower "SWIGGY Order" = Str.lower "swiggy order"
  /\ categorize_transaction "SWIGGY Order" "" =
     categorize_transaction "swiggy order" "".
Proof.
  split; [reflexivity|].
  exact (proj1 (categorize_ignores_case "SWIGGY Order" "swiggy order" "")
           eq_refl).
Defined.


(** ** Loading *)

Lemma missing_cols_nil (df : frame) :
  missing_cols df = [] <->
  forall col, In col required_columns -> in_columns col df = true.
Proof.
  unfold missing_cols. split.
  - intros H col Hc. destruct (in_columns col df) eqn:E; [reflexivity|].
    assert (Hin : In col (filter (fun c => negb (in_columns c df))
                            required_columns))
      by (apply filter_In; split; [assumption | now rewrite E]).
    rewrite H in Hin. destruct Hin.
  - intros H. destruct (filter _ required_columns) as [|c l] eqn:E;
      [reflexivity|].
    assert (Hin : In c (filter (fun c => negb (in_columns c df))
                          required_columns)) by (rewrite E; now left).
    apply filter_In in Hin. destruct Hin as [Hc Hn].
    rewrite (H c Hc) in Hn. discriminate.
Qed.

(** X3. Loading succeeds exactly when the [Date] column is there and
    parses and the three other required columns are there; it then gives
    the parsed dates and the frame as it was read.  A [Date] column that
    does not parse stops the run with the message on the date format, also
    when other columns are missing. *)
Theorem load_success
    (to_datetime : list string -> option (list Z)) (df df' : frame)
    (dates : list Z) :
  (load to_datetime df = Loaded (dates, df') <->
   df' = df
   /\ (exists cells, column "Date" df = Some cells
                     /\ to_datetime cells = Some dates)
   /\ forall col, In col required_columns -> in_columns col df = true)
  /\ (forall cells, column "Date" df = Some cells ->
                    to_datetime cells = None ->
                    load to_datetime df = Stopped date_format_message).
Proof.
  split.
  - unfold load. split.
    + destruct (column "Date" df) as [cells|]; [|discriminate].
      destruct (to_datetime cells) as [ds|] eqn:Ed; [|discriminate].
      destruct (missing_cols df) eqn:Em; [|discriminate].
      intros [= <- <-]. split; [reflexivity|]. split.
      * now exists cells.
      * now apply missing_cols_nil.
    + intros [-> [[cells [Hc Hd]] Hall]].
      apply missing_cols_nil in Hall. now rewrite Hc, Hd, Hall.
  - intros cells Hc Hd. unfold load. now rewrite Hc, Hd.
Qed.

Lemma load_success_witness :
  let df := [("Date", ["01/01/2024"; "2/1/2024"]);
             ("Transaction Details", ["Swiggy order"; "Salary"]);
             ("Amount", ["-200"; "5000"]); ("Tags", [""; "received from"])] in
  load Dmy.to_datetime df = Loaded ([19723; 19724]%Z, df)
  /\ load Dmy.to_datetime [("Date", ["2024-01-01"])] =
     Stopped date_format_message.
Proof.
  cbv zeta. split.
  - apply (proj1 (load_success Dmy.to_datetime _ _ _)).
    split; [reflexivity|]. split.
    + eexists. split; reflexivity.
    + intros col [<- | [<- | [<- | []]]]; reflexivity.
  - apply (proj2 (load_success Dmy.to_datetime _ [] []) ["2024-01-01"]);
      reflexivity.
Defined.

(** ** Tag cleaning *)

Lemma strip_marker_space (c : ascii) (t : string) :
  Str.is_space c = true ->
  strip_marker true (String c t) = strip_marker true t.
Proof. intros H. cbn [strip_marker]. now rewrite H. Qed.

Lemma space_not_marker (c : ascii) :
  Str.is_space c = true -> Ascii.eqb c "#" = false.
Proof.
  destruct (Ascii.eqb_spec c "#") as [-> | _]; [discriminate | reflexivity].
Qed.

Lemma starts_with_marker_head (c : ascii) (t : string) :
  Ascii.eqb c "#" = false -> Str.starts_with "#??" (String c t) = false.
Proof.
  intros H. cbn [Str.starts_with]. rewrite Ascii.eqb_sym, H. reflexivity.
Qed.

Lemma payload_strip_aux (n : nat) :
  forall s b, (String.length s <= n)%nat ->
              payload (strip_marker b s) = payload s.
Proof.
  induction n as [|n IH]; intros s b Hn.
  - destruct s; [reflexivity | simpl in Hn; lia].
  - destruct s as [|c t]; [reflexivity|].
    cbn [String.length] in Hn.
    destruct (b && Str.is_space c) eqn:Eb.
    + apply andb_true_iff in Eb. destruct Eb as [-> Hc].
      rewrite (strip_marker_space _ _ Hc). cbn [payload].
      unfold marker_or_space. rewrite Hc, orb_true_r. apply IH. lia.
    + destruct (Str.starts_with "#??" (String c t)) eqn:Es.
      * destruct (starts_with_marker _ Es) as [u Hu]. rewrite Hu.
        rewrite strip_marker_match. injection Hu as -> ->.
        cbn [String.length] in Hn.
        change (payload (String "#" (String "?" (String "?" u))))
          with (payload u).
        apply IH. lia.
      * rewrite strip_marker_other by assumption.
        cbn [payload]. rewrite (IH t false) by lia. reflexivity.
Qed.

(** X4. Cleaning only deletes characters, and only characters of the
    marker and whitespace: the cleaned tags are never longer than the
    uploaded ones, and the other characters are all kept, in their order. *)
Theorem clean_tags_keeps_payload (tags : string) :
  payload (clean_tags tags) = payload tags
  /\ (String.length (clean_tags tags) <= String.length tags)%nat.
Proof.
  split.
  - apply (payload_strip_aux (String.length tags)). lia.
  - apply strip_marker_length.
Qed.

(** Text without [#] is copied. *)
Lemma strip_marker_copy (a b : string) :
  Str.has_char "#" a = false ->
  strip_marker false (a ++ b) = (a ++ strip_marker false b)%string.
Proof.
  induction a as [|c a IH]; [reflexivity|].
  cbn [Str.has_char]. intros H. apply orb_false_iff in H. destruct H as [Hc Ha].
  cbn [append]. rewrite strip_marker_other.
  - now rewrite IH.
  - apply starts_with_marker_head. now rewrite Ascii.eqb_sym.
  - reflexivity.
Qed.

Lemma strip_marker_spaces (ws t : string) :
  all_space ws = true ->
  strip_marker true (ws ++ t) = strip_marker true t.
Proof.
  induction ws as [|c ws IH]; [reflexivity|].
  cbn [all_space]. intros H. apply andb_true_iff in H. destruct H as [Hc Hw].
  cbn [append]. rewrite (strip_marker_space _ _ Hc). now apply IH.
Qed.

(** After the whitespace of a match the scan goes on as at the start. *)
Lemma strip_marker_resume (t : string) :
  no_leading_space t = true -> strip_marker true t = strip_marker false t.
Proof.
  destruct t as [|c t]; [reflexivity|].
  cbn [no_leading_space]. intros H. apply negb_true_iff in H.
  cbn [strip_marker]. now rewrite H.
Qed.

Lemma string_app_nil_r (s : string) : (s ++ "")%string = s.
Proof. induction s as [|c s IH]; [reflexivity | simpl; now rewrite IH]. Qed.

(** X5. A marker and the whitespace after it are taken out and the text
    around them is kept as it is: for text [a] and [t] without [#], [t] not
    beginning with whitespace, and whitespace [ws], the tags [a #?? ws t]
    are cleaned to [a t]. *)
Theorem clean_tags_removes_marker (a ws t : string) :
  Str.has_char "#" a = false ->
  all_space ws = true ->
  Str.has_char "#" t = false ->
  no_leading_space t = true ->
  clean_tags (a ++ "#??" ++ ws ++ t) = (a ++ t)%string.
Proof.
  intros Ha Hw Ht Hl. unfold clean_tags.
  rewrite (strip_marker_copy a _ Ha).
  change ("#??" ++ ws ++ t)%string
    with (String "#" (String "?" (String "?" (ws ++ t)%string))).
  rewrite strip_marker_match, (strip_marker_spaces ws t Hw),
    (strip_marker_resume t Hl).
  rewrite <- (string_app_nil_r t) at 1.
  rewrite (strip_marker_copy t "" Ht). cbn [strip_marker].
  now rewrite string_app_nil_r.
Qed.

Lemma clean_tags_removes_marker_witness :
  clean_tags "#?? groceries" = "groceries"
  /\ clean_tags "food #??  	dining" = "food dining".
Proof.
  split.
  - apply (clean_tags_removes_marker "" " " "groceries"); reflexivity.
  - apply (clean_tags_removes_marker "food " "  	" "dining"); reflexivity.
Defined.


Lemma occurs_cons (k : string) (d : ascii) (s : string) :
  Str.occurs k s -> Str.occurs k (String d s).
Proof. intros H. exact (occurs_app_r k (String d "") s H). Qed.

Lemma strip_marker_keeps_aux (c : ascii) (k : string) (n : nat) :
  Str.is_space c = false ->
  Str.has_char "#" (String c k) = false ->
  Str.has_char "?" (String c k) = false ->
  forall s b, (String.length s <= n)%nat ->
              Str.occurs (String c k) s ->
              Str.occurs (String c k) (strip_marker b s).
Proof.
  intros Hsp Hh Hq.
  assert (Hc : Ascii.eqb c "#" = false).
  { cbn [Str.has_char] in Hh. apply orb_false_iff in Hh.
    rewrite Ascii.eqb_sym. tauto. }
  assert (Hc' : Ascii.eqb "?" c = false).
  { cbn [Str.has_char] in Hq. apply orb_false_iff in Hq. tauto. }
  assert (Hk : Str.has_char "#" k = false).
  { cbn [Str.has_char] in Hh. apply orb_false_iff in Hh. tauto. }
  induction n as [|n IH]; intros s b Hn [pre [post Hs]].
  - destruct s; [destruct pre; discriminate | simpl in Hn; lia].
  - destruct pre as [|d pre].
    + cbn [append] in Hs. subst s.
      rewrite strip_marker_other.
      * rewrite (strip_marker_copy k post Hk).
        now exists ""%string, (strip_marker false post).
      * now apply starts_with_marker_head.
      * rewrite Hsp. apply andb_false_r.
    + cbn [append] in Hs. subst s. cbn [String.length] in Hn.
      remember (pre ++ String c (k ++ post))%string as t eqn:Et.
      assert (Ht : Str.occurs (String c k) t) by (exists pre, post; exact Et).
      destruct (b && Str.is_space d) eqn:Eb.
      * apply andb_true_iff in Eb. destruct Eb as [-> Hd].
        rewrite (strip_marker_space _ _ Hd). apply IH; [lia | exact Ht].
      * destruct (Str.starts_with "#??" (String d t)) eqn:Es.
        -- destruct (starts_with_marker _ Es) as [u Hu]. rewrite Hu.
           rewrite strip_marker_match. injection Hu as -> Hu.
           rewrite Hu in Et.
           destruct pre as [|x [|y pre]]; cbn [append] in Et.
           ++ injection Et as <- _. discriminate Hc'.
           ++ injection Et as _ <- _. discriminate Hc'.
           ++ injection Et as _ _ Et. apply IH.
              ** rewrite Hu in Hn. cbn [String.length] in Hn. lia.
              ** exists pre, post. exact Et.
        -- rewrite strip_marker_other by assumption.
           apply occurs_cons, IH; [lia | exact Ht].
Qed.

(** X6. Text that has neither [#] nor [?] in it and does not begin with
    whitespace survives the cleaning wherever it occurs in the tags.  So a
    row whose details match no keyword and whose uploaded tags contain
    [Money Received] is categorised [Money Received]. *)
Theorem clean_tags_keeps_occurrence (c : ascii) (k tags : string)
    (r : raw_row) :
  (Str.is_space c = false ->
   Str.has_char "#" (String c k) = false ->
   Str.has_char "?" (String c k) = false ->
   Str.occurs (String c k) tags ->
   Str.occurs (String c k) (clean_tags tags))
  /\ ((forall cat kws kw, In (cat, kws) categories_keywords -> In kw kws ->
                          ~ Str.occurs kw (Str.lower (raw_Details r))) ->
      Str.occurs "Money Received" (raw_Tags r) ->
      Category (prepare_row r) = "Money Received").
Proof.
  split.
  - intros Hsp Hh Hq Hocc.
    apply (strip_marker_keeps_aux c k (String.length tags) Hsp Hh Hq); auto.
  - intros Hnone Hocc. apply scan_categories_none in Hnone.
    unfold prepare_row; cbn [Category].
    rewrite (categorize_fallback _ _ Hnone).
    assert (H : Str.occurs "Money Received" (clean_tags (raw_Tags r))).
    { apply (strip_marker_keeps_aux "M" "oney Received"
               (String.length (raw_Tags r))); auto. }
    apply str_in_occurs in H. now rewrite H.
Qed.

Lemma clean_tags_keeps_occurrence_witness :
  let r := {| raw_idx := 0; raw_Date := 19723; raw_Details := "xyz";
              raw_Amount := 700%Z;
              raw_Tags := "#?? Money Received #?? upi" |} in
  Str.occurs "Money Received" (raw_Tags r)
  /\ Tags (prepare_row r) = "Money Received upi"
  /\ Category (prepare_row r) = "Money Received".
Proof.
  cbv zeta.
  assert (H : Str.occurs "Money Received" "#?? Money Received #?? upi")
    by (apply str_in_occurs; reflexivity).
  split; [exact H|]. split; [reflexivity|].
  apply (proj2 (clean_tags_keeps_occurrence "M" "" ""
           {| raw_idx := 0; raw_Date := 19723; raw_Details := "xyz";
              raw_Amount := 700%Z;
              raw_Tags := "#?? Money Received #?? upi" |})).
  - apply scan_categories_none. reflexivity.
  - exact H.
Defined.


(** ** Filters and their defaults *)

Lemma subseq_refl {A : Type} (l : list A) : subseq l l.
Proof. induction l; constructor; assumption. Qed.

Lemma subseq_filter {A : Type} (p : A -> bool) (l : list A) :
  subseq (filter p l) l.
Proof.
  induction l as [|x l IH]; simpl; [constructor|].
  destruct (p x); constructor; assumption.
Qed.

Lemma subseq_trans {A : Type} (l1 l2 l3 : list A) :
  subseq l1 l2 -> subseq l2 l3 -> subseq l1 l3.
Proof.
  intros H12 H23. revert l1 H12.
  induction H23 as [|x l2 l3 H IH|x l2 l3 H IH]; intros l1 H12.
  - exact H12.
  - apply subseq_skip. now apply IH.
  - inversion H12; subst.
    + apply subseq_skip. now apply IH.
    + apply subseq_keep. now apply IH.
Qed.

Lemma subseq_In {A : Type} (out l : list A) (x : A) :
  subseq out l -> In x out -> In x l.
Proof.
  induction 1 as [|y out l H IH|y out l H IH]; simpl; intros Hx.
  - assumption.
  - right. now apply IH.
  - destruct Hx as [-> | Hx]; [now left | right; now apply IH].
Qed.

Lemma subseq_map {A B : Type} (f : A -> B) (out l : list A) :
  subseq out l -> subseq (map f out) (map f l).
Proof. induction 1; simpl; constructor; assumption. Qed.

Lemma subseq_NoDup {A : Type} (out l : list A) :
  subseq out l -> NoDup l -> NoDup out.
Proof.
  induction 1 as [|y out l H IH|y out l H IH]; intros Hn.
  - constructor.
  - inversion Hn; subst. now apply IH.
  - inversion Hn; subst. constructor; [|now apply IH].
    intros Hin. now apply (subseq_In _ _ _ H) in Hin.
Qed.

Lemma category_filter_In (selected : list string) (df : list row) (r : row) :
  In r (category_filter selected df) <->
  In r df /\ (selected = [] \/ In (Category r) selected).
Proof.
  destruct selected as [|c selected]; simpl.
  - tauto.
  - rewrite filter_In. unfold isin. cbn [existsb].
    rewrite orb_true_iff, existsb_exists, String.eqb_eq. split.
    + intros [Hin [-> | [x [Hx Heq]]]].
      * split; [assumption | right; now left].
      * apply String.eqb_eq in Heq. subst x.
        split; [assumption | right; now right].
    + intros [Hin [Hnil | [-> | Hc]]].
      * discriminate.
      * split; [assumption | now left].
      * split; [assumption | right].
        exists (Category r). split; [assumption | apply String.eqb_refl].
Qed.

Lemma category_filter_subseq (selected : list string) (df : list row) :
  subseq (category_filter selected df) df.
Proof.
  destruct selected; simpl; [apply subseq_refl | apply subseq_filter].
Qed.

(** X7. The filtered view holds exactly the rows of the ledger whose date
    is within the two dates, whose amount is within the range, and whose
    category is selected when something is selected; the rows stand in the
    order of the ledger, each at most as often as there; so labels that are
    distinct in the ledger are distinct in the view. *)
Theorem apply_filters_view (start_date end_date : Z)
    (selected_categories : list string) (amount_range : Z * Z)
    (df : list row) :
  let view := apply_filters start_date end_date selected_categories
                amount_range df in
  (forall r, In r view <->
             In r df
             /\ (start_date <= Date r <= end_date)%Z
             /\ (selected_categories = [] \/
                 In (Category r) selected_categories)
             /\ (fst amount_range <= Amount r <= snd amount_range)%Z)
  /\ subseq view df
  /\ (NoDup (map idx df) -> NoDup (map idx view)).
Proof.
  cbv zeta.
  assert (S : subseq (apply_filters start_date end_date selected_categories
                        amount_range df) df).
  { unfold apply_filters, amount_filter, date_filter.
    eapply subseq_trans; [apply subseq_filter|].
    eapply subseq_trans; [apply category_filter_subseq | apply subseq_filter]. }
  split; [|split; [exact S|]].
  - intros r. unfold apply_filters, amount_filter, date_filter.
    rewrite filter_In, category_filter_In, filter_In,
      !andb_true_iff, !Z.leb_le. tauto.
  - apply subseq_NoDup, subseq_map, S.
Qed.

Lemma apply_filters_view_witness :
  let r0 := {| idx := 0; Date := 19723; Transaction_Details := "Swiggy order";
               Amount := (-200)%Z; Tags := ""; Category := "Food and Dining" |} in
  let r1 := {| idx := 1; Date := 19724; Transaction_Details := "Petrol";
               Amount := (-900)%Z; Tags := ""; Category := "Fuel" |} in
  NoDup (map idx [r0; r1])
  /\ NoDup (map idx (apply_filters 19723 19730 ["Fuel"]
                       ((-1000)%Z, 0%Z) [r0; r1]))
  /\ apply_filters 19723 19730 ["Fuel"] ((-1000)%Z, 0%Z) [r0; r1] = [r1].
Proof.
  cbv zeta.
  match goal with |- ?T /\ _ => assert (H : T) end.
  { simpl. repeat constructor; simpl; intuition discriminate. }
  split; [exact H|]. split; [|reflexivity].
  exact (proj2 (proj2 (apply_filters_view 19723 19730 ["Fuel"]
                         ((-1000)%Z, 0%Z) _)) H).
Defined.

(** *** The default selection *)

Lemma unique_In (l : list string) (x : string) : In x (unique l) <-> In x l.
Proof.
  induction l as [|y l IH]; simpl; [tauto|].
  rewrite filter_In, IH, negb_true_iff, String.eqb_neq.
  destruct (String.eqb_spec x y) as [-> | Hne]; [tauto|].
  split; [tauto|]. intros [-> | H]; [now destruct Hne | tauto].
Qed.

Lemma NoDup_filter {A : Type} (p : A -> bool) (l : list A) :
  NoDup l -> NoDup (filter p l).
Proof.
  induction 1 as [|x l Hx Hn IH]; simpl; [constructor|].
  destruct (p x); [|exact IH].
  constructor; [|exact IH]. intros Hin. apply filter_In in Hin. tauto.
Qed.

Lemma unique_NoDup (l : list string) : NoDup (unique l).
Proof.
  induction l as [|y l IH]; simpl; constructor.
  - intros Hin. apply filter_In in Hin. destruct Hin as [_ Hn].
    now rewrite String.eqb_refl in Hn.
  - now apply NoDup_filter.
Qed.

Lemma insert_sorted_perm (x : string) (l : list string) :
  Permutation (x :: l) (insert_sorted x l).
Proof.
  induction l as [|y l IH]; simpl; [apply Permutation_refl|].
  destruct (String.leb x y).
  - apply Permutation_refl.
  - eapply perm_trans; [apply perm_swap | now apply perm_skip].
Qed.

Lemma sorted_perm (l : list string) : Permutation l (sorted l).
Proof.
  unfold sorted. induction l as [|x l IH]; simpl; [constructor|].
  eapply perm_trans; [apply perm_skip, IH | apply insert_sorted_perm].
Qed.

Lemma insert_sorted_Sorted (x : string) (l : list string) :
  Sorted str_le l -> Sorted str_le (insert_sorted x l).
Proof.
  induction 1 as [|y l Hs IH Hy]; simpl.
  - repeat constructor.
  - destruct (String.leb x y) eqn:E.
    + constructor; [now constructor | now constructor].
    + constructor; [exact IH|].
      assert (Hyx : str_le y x).
      { destruct (String.leb_total x y) as [H | H]; [congruence | exact H]. }
      destruct l as [|z l]; simpl.
      * now constructor.
      * destruct (String.leb x z); constructor; [exact Hyx|].
        now inversion Hy.
Qed.

Lemma sorted_Sorted (l : list string) : Sorted str_le (sorted l).
Proof.
  unfold sorted. induction l as [|x l IH]; simpl; [constructor|].
  now apply insert_sorted_Sorted.
Qed.


Lemma all_categories_In (df : list row) (c : string) :
  In c (all_categories df) <-> exists r, In r df /\ Category r = c.
Proof.
  unfold all_categories. split.
  - intros H. apply (Permutation_in _ (Permutation_sym (sorted_perm _))) in H.
    apply unique_In, in_map_iff in H. destruct H as [r [Hc Hr]]. now exists r.
  - intros [r [Hr <-]]. apply (Permutation_in _ (sorted_perm _)).
    apply unique_In. now apply in_map.
Qed.

(** X8. The categories offered for selection are those of the rows of the
    ledger, each once, in ascending order. *)
Theorem all_categories_listing (df : list row) :
  (forall c, In c (all_categories df) <-> exists r, In r df /\ Category r = c)
  /\ NoDup (all_categories df)
  /\ Sorted str_le (all_categories df).
Proof.
  split; [apply all_categories_In | split].
  - apply (Permutation_NoDup (sorted_perm _)), unique_NoDup.
  - apply sorted_Sorted.
Qed.

Lemma all_categories_listing_witness :
  let df :=
    [ {| idx := 0; Date := 19723; Transaction_Details := "Petrol";
         Amount := (-900)%Z; Tags := ""; Category := "Fuel" |};
      {| idx := 1; Date := 19724; Transaction_Details := "xyz";
         Amount := (-40)%Z; Tags := ""; Category := "Other" |};
      {| idx := 2; Date := 19725; Transaction_Details := "Fuel stop";
         Amount := (-300)%Z; Tags := ""; Category := "Fuel" |} ] in
  all_categories df = ["Fuel"; "Other"] /\ In "Other" (all_categories df).
Proof.
  cbv zeta. split; [reflexivity|].
  apply (proj1 (all_categories_listing _)).
  eexists. split; [right; left; reflexivity | reflexivity].
Defined.

(** ** Expenditure rows and their sums *)

Lemma total_app (l1 l2 : list Z) : total (l1 ++ l2) = (total l1 + total l2)%Z.
Proof. induction l1 as [|x l1 IH]; simpl; [reflexivity | rewrite IH; lia]. Qed.

Lemma exp_df_total (df_filtered : list row) :
  total (map Abs_Amount (exp_df df_filtered)) = debits df_filtered.
Proof.
  unfold debits, exp_df.
  assert (Hneg : Forall (fun z => z < 0)%Z
            (map Amount (filter (fun r => (Amount r <? 0)%Z) df_filtered))).
  { apply Forall_forall. intros z Hz. apply in_map_iff in Hz.
    destruct Hz as [r [<- Hr]]. apply filter_In in Hr. lia. }
  destruct (total_negatives _ Hneg) as [Hle _].
  rewrite map_map. cbn [Abs_Amount].
  assert (E : forall l : list row,
             total (map (fun r => (- Amount r)%Z) l) = (- total (map Amount l))%Z).
  { induction l as [|r l IH]; simpl; [reflexivity | rewrite IH; lia]. }
  rewrite E. lia.
Qed.



(** *** Sums by group *)

Lemma total_zeros {K : Type} (ks : list K) :
  total (map (fun _ => 0%Z) ks) = 0%Z.
Proof. induction ks as [|k ks IH]; simpl; [reflexivity | now rewrite IH]. Qed.

Lemma total_map_add {K : Type} (f g : K -> Z) (ks : list K) :
  total (map (fun k => (f k + g k)%Z) ks) =
  (total (map f ks) + total (map g ks))%Z.
Proof.
  induction ks as [|k ks IH]; simpl; [reflexivity | rewrite IH; lia].
Qed.

Section Groups.

Variable K : Type.
Variable eqb : K -> K -> bool.
Hypothesis eqb_spec : forall x y, reflect (x = y) (eqb x y).
Variable key : exp_row -> K.

Lemma total_indicator (x : K) (v : Z) (ks : list K) :
  NoDup ks -> In x ks ->
  total (map (fun k => if eqb x k then v else 0%Z) ks) = v.
Proof.
  induction 1 as [|k ks Hk Hn IH]; intros Hin; [destruct Hin|].
  simpl. destruct (eqb_spec x k) as [-> | Hne].
  - assert (E : total (map (fun k0 => if eqb k k0 then v else 0%Z) ks) = 0%Z).
    { clear IH Hn Hin. induction ks as [|y ks IH]; [reflexivity|].
      simpl. destruct (eqb_spec k y) as [-> | _].
      - destruct Hk. now left.
      - apply IH. intros H. apply Hk. now right. }
    rewrite E. lia.
  - destruct Hin as [-> | Hin]; [now destruct Hne|].
    now rewrite IH.
Qed.

(** Distinct keys that cover the frame: the group sums add up to the sum
    of the frame. *)
Lemma group_totals_sum (ks : list K) (exp : list exp_row) :
  NoDup ks -> (forall e, In e exp -> In (key e) ks) ->
  total (map (fun k => total (map Abs_Amount
                                (filter (fun e => eqb (key e) k) exp))) ks) =
  total (map Abs_Amount exp).
Proof.
  intros Hn. induction exp as [|e exp IH]; intros Hcov.
  - simpl. apply total_zeros.
  - rewrite (map_ext _
      (fun k => ((if eqb (key e) k then Abs_Amount e else 0) +
                 total (map Abs_Amount
                          (filter (fun e => eqb (key e) k) exp)))%Z)).
    + rewrite total_map_add, total_indicator, IH.
      * reflexivity.
      * intros e' He'. apply Hcov. now right.
      * exact Hn.
      * apply Hcov. now left.
    + intros k. simpl. destruct (eqb (key e) k); reflexivity.
Qed.

End Groups.

Section KeyedSums.

Variable R : Type.
Variable key : R -> option string.
Variable value : R -> Z.

Lemma present_In (keys : list (option string)) (k : string) :
  In k (present keys) <-> In (Some k) keys.
Proof.
  induction keys as [|[s|] keys IH]; cbn [present In].
  - tauto.
  - rewrite IH. split; intros [H | H]; auto; left; congruence.
  - rewrite IH. split; [auto | intros [H | H]; [discriminate | exact H]].
Qed.

Lemma groupby_key_In (rows : list R) (k : string) :
  In k (sorted (unique (present (map key rows)))) <->
  exists r, In r rows /\ key r = Some k.
Proof.
  split.
  - intros H. apply (Permutation_in _ (Permutation_sym (sorted_perm _))) in H.
    apply unique_In, present_In, in_map_iff in H.
    destruct H as [r [Hk Hr]]. now exists r.
  - intros [r [Hr Hk]]. apply (Permutation_in _ (sorted_perm _)).
    apply unique_In, present_In. rewrite <- Hk. now apply in_map.
Qed.

(** Distinct keys that cover the rows with a key: the group sums add up to
    the sum over the rows that have a key. *)
Lemma keyed_totals_sum (ks : list string) (rows : list R) :
  NoDup ks ->
  (forall r k, In r rows -> key r = Some k -> In k ks) ->
  total (map (fun k => total (map value
                                (filter (fun r => has_key k (key r)) rows)))
             ks) =
  total (map value (filter (keyed key) rows)).
Proof.
  intros Hn. induction rows as [|r rows IH]; intros Hcov.
  - simpl. apply total_zeros.
  - assert (IH' := IH (fun r' k Hr => Hcov r' k (or_intror Hr))).
    cbn [filter]. unfold keyed at 1. destruct (key r) as [s|] eqn:Ek.
    + rewrite (map_ext _
        (fun k => ((if String.eqb s k then value r else 0) +
                   total (map value
                            (filter (fun r => has_key k (key r)) rows)))%Z)).
      * rewrite total_map_add,
          (total_indicator string String.eqb String.eqb_spec), IH'.
        -- reflexivity.
        -- exact Hn.
        -- apply (Hcov r s); [now left | exact Ek].
      * intros k. cbn [has_key]. destruct (String.eqb s k); reflexivity.
    + exact IH'.
Qed.

Lemma keyed_total_positive (rows : list R) (k : string) :
  (forall r, In r rows -> (0 < value r)%Z) ->
  (exists r, In r rows /\ key r = Some k) ->
  (0 < total (map value (filter (fun r => has_key k (key r)) rows)))%Z.
Proof.
  intros Hpos [r [Hr Hk]].
  assert (Hnn : forall l, (forall x, In x l -> (0 < value x)%Z) ->
            (0 <= total (map value
                           (filter (fun r => has_key k (key r)) l)))%Z).
  { induction l as [|x l IH]; intros Hl; simpl; [lia|].
    pose proof (Hl x (or_introl eq_refl)).
    pose proof (IH (fun y Hy => Hl y (or_intror Hy))).
    destruct (has_key k (key x)); simpl; lia. }
  induction rows as [|x l IH]; [destruct Hr|].
  pose proof (Hpos x (or_introl eq_refl)) as Hx.
  pose proof (Hnn l (fun y Hy => Hpos y (or_intror Hy))) as Hl.
  simpl. destruct Hr as [-> | Hr].
  - rewrite Hk. cbn [has_key]. rewrite String.eqb_refl. simpl. lia.
  - specialize (IH (fun y Hy => Hpos y (or_intror Hy)) Hr).
    destruct (has_key k (key x)); simpl; lia.
Qed.

Lemma total_filter_le (p : R -> bool) (rows : list R) :
  (forall r, In r rows -> (0 < value r)%Z) ->
  (total (map value (filter p rows)) <= total (map value rows))%Z.
Proof.
  induction rows as [|x l IH]; intros Hpos; simpl; [lia|].
  pose proof (Hpos x (or_introl eq_refl)).
  pose proof (IH (fun y Hy => Hpos y (or_intror Hy))).
  destruct (p x); simpl; lia.
Qed.

(** The table of a [groupby]: its keys, its sums and their total. *)
Lemma groupby_sum_table (rows : list R) :
  (forall r, In r rows -> (0 < value r)%Z) ->
  (forall k, In k (map fst (groupby_sum key value rows)) <->
             exists r, In r rows /\ key r = Some k)
  /\ NoDup (map fst (groupby_sum key value rows))
  /\ Sorted str_le (map fst (groupby_sum key value rows))
  /\ (forall k v, In (k, v) (groupby_sum key value rows) ->
        v = total (map value (filter (fun r => has_key k (key r)) rows))
        /\ (0 < v)%Z)
  /\ total (map snd (groupby_sum key value rows)) =
     total (map value (filter (keyed key) rows))
  /\ (total (map snd (groupby_sum key value rows)) <=
      total (map value rows))%Z.
Proof.
  intros Hpos.
  assert (K : map fst (groupby_sum key value rows) =
              sorted (unique (present (map key rows)))).
  { unfold groupby_sum. rewrite map_map. apply map_id. }
  assert (T : total (map snd (groupby_sum key value rows)) =
              total (map value (filter (keyed key) rows))).
  { unfold groupby_sum. rewrite map_map. cbn [snd].
    apply keyed_totals_sum.
    - apply (Permutation_NoDup (sorted_perm _)), unique_NoDup.
    - intros r k Hr Hk. apply groupby_key_In. now exists r. }
  rewrite K. split; [apply groupby_key_In|].
  split; [apply (Permutation_NoDup (sorted_perm _)), unique_NoDup|].
  split; [apply sorted_Sorted|]. split; [|split].
  - intros k v Hin. unfold groupby_sum in Hin. apply in_map_iff in Hin.
    destruct Hin as [k' [[= -> <-] Hk]]. split; [reflexivity|].
    apply keyed_total_positive; [exact Hpos | now apply groupby_key_In].
  - exact T.
  - rewrite T. now apply total_filter_le.
Qed.

End KeyedSums.

Lemma total_filter_split {A : Type} (f : A -> Z) (p q : A -> bool)
    (l : list A) :
  (forall x, q x = negb (p x)) ->
  total (map f (filter p l)) =
  (total (map f l) - total (map f (filter q l)))%Z.
Proof.
  intros H. unfold total. induction l as [|x l IH]; simpl; [lia|].
  rewrite H. destruct (p x); simpl; lia.
Qed.

Lemma filter_true {A : Type} (p : A -> bool) (l : list A) :
  (forall x, In x l -> p x = true) -> filter p l = l.
Proof.
  induction l as [|x l IH]; intros H; simpl; [reflexivity|].
  rewrite (H x (or_introl eq_refl)), IH; [reflexivity|].
  intros y Hy. apply H. now right.
Qed.



(** *** Sums by day *)

Lemma day_range_In (lo hi d : Z) :
  In d (day_range lo hi) <-> (lo <= d <= hi)%Z.
Proof.
  unfold day_range. rewrite in_map_iff. split.
  - intros [k [<- Hk]]. apply in_seq in Hk. lia.
  - intros H. exists (Z.to_nat (d - lo)). split; [lia|].
    apply in_seq. lia.
Qed.

Lemma day_range_NoDup (lo hi : Z) : NoDup (day_range lo hi).
Proof.
  unfold day_range.
  generalize (Z.to_nat (hi - lo + 1)). intros n.
  generalize 0%nat. induction n as [|n IH]; intros s; simpl; constructor.
  - intros Hin. apply in_map_iff in Hin. destruct Hin as [k [Hk Hin]].
    apply in_seq in Hin. lia.
  - apply IH.
Qed.



(** ** Corrections *)

Lemma apply_edit_map {A : Type} (f : row -> A) (df : list row)
    (edit : nat * string) :
  (forall c r, f (set_Category c r) = f r) ->
  map f (apply_edit df edit) = map f df.
Proof.
  intros Hf. destruct edit as [i c]. unfold apply_edit, loc_set_Category.
  destruct (negb (String.eqb c "Other")); [|reflexivity].
  rewrite map_map. apply map_ext. intros r.
  destruct (idx r =? i)%nat; [apply Hf | reflexivity].
Qed.

(** A column other than [Category] is as it was after the batch. *)
Lemma update_categories_map {A : Type} (f : row -> A) (df : list row)
    (edits : list (nat * string)) :
  (forall c r, f (set_Category c r) = f r) ->
  map f (update_categories df edits) = map f df.
Proof.
  intros Hf. unfold update_categories. revert df.
  induction edits as [|e edits IH]; intros df; [reflexivity|].
  cbn [fold_left]. now rewrite IH, apply_edit_map.
Qed.

Lemma credits_of_amounts (df : list row) :
  credits df = total (filter (fun a => 0 <? a)%Z (map Amount df)).
Proof.
  unfold credits. now rewrite (filter_map_Amount (fun a => 0 <? a)%Z).
Qed.

Lemma debits_of_amounts (df : list row) :
  debits df = Z.abs (total (filter (fun a => a <? 0)%Z (map Amount df))).
Proof.
  unfold debits. now rewrite (filter_map_Amount (fun a => a <? 0)%Z).
Qed.

(** X13. A batch of corrections writes to the [Category] column only: the
    ledger keeps its rows and their order, and every label, date, details,
    amount and tags as they were; so the totals credited and debited are
    the same before and after. *)
Theorem update_categories_frame (df : list row)
    (edited_uncat : list (nat * string)) :
  let df' := update_categories df edited_uncat in
  map idx df' = map idx df
  /\ map Date df' = map Date df
  /\ map Transaction_Details df' = map Transaction_Details df
  /\ map Amount df' = map Amount df
  /\ map Tags df' = map Tags df
  /\ credits df' = credits df
  /\ debits df' = debits df.
Proof.
  cbv zeta.
  assert (HA : map Amount (update_categories df edited_uncat) = map Amount df)
    by now apply update_categories_map.
  repeat split; try (now apply update_categories_map).
  - now rewrite !credits_of_amounts, HA.
  - now rewrite !debits_of_amounts, HA.
Qed.

Lemma find_app {A : Type} (p : A -> bool) (l1 l2 : list A) :
  find p (l1 ++ l2) =
  match find p l1 with Some x => Some x | None => find p l2 end.
Proof.
  induction l1 as [|x l1 IH]; simpl; [reflexivity|].
  destruct (p x); [reflexivity | exact IH].
Qed.

Lemma last_edit_cons (i : nat) (e : nat * string)
    (edits : list (nat * string)) :
  last_edit i (e :: edits) =
  match last_edit i edits with
  | Some c => Some c
  | None =>
      if negb (String.eqb (snd e) "Other") && (fst e =? i)%nat
      then Some (snd e) else None
  end.
Proof.
  unfold last_edit. cbn [filter].
  destruct (negb (String.eqb (snd e) "Other")); cbn [andb].
  - cbn [rev]. rewrite find_app.
    destruct (find _ (rev _)) as [x|]; [reflexivity|].
    cbn [find]. destruct (fst e =? i)%nat; reflexivity.
  - destruct (find _ (rev _)); reflexivity.
Qed.

(** The ledger after the loop of the handler, row by row. *)
Lemma update_categories_last_edit (df : list row)
    (edits : list (nat * string)) :
  update_categories df edits =
  map (fun r => match last_edit (idx r) edits with
                | Some c => set_Category c r
                | None => r
                end) df.
Proof.
  unfold update_categories. revert df.
  induction edits as [|[i c] edits IH]; intros df.
  - cbn [fold_left]. symmetry. apply map_id.
  - cbn [fold_left]. rewrite IH. unfold apply_edit, loc_set_Category.
    destruct (negb (String.eqb c "Other")) eqn:Ec.
    + rewrite map_map. apply map_ext. intros r.
      rewrite last_edit_cons. cbn [fst snd]. rewrite Ec. cbn [andb].
      rewrite (Nat.eqb_sym i (idx r)).
      destruct (idx r =? i)%nat; cbn [idx set_Category];
        destruct (last_edit (idx r) edits); reflexivity.
    + apply map_ext. intros r. rewrite last_edit_cons. cbn [fst snd].
      rewrite Ec. cbn [andb]. destruct (last_edit (idx r) edits); reflexivity.
Qed.

Lemma last_edit_some (i : nat) (edits : list (nat * string)) (c : string) :
  last_edit i edits = Some c -> In (i, c) edits /\ c <> "Other".
Proof.
  unfold last_edit.
  destruct (find _ _) as [[j c']|] eqn:E; [|discriminate].
  intros [= <-]. apply find_some in E. destruct E as [Hin Hj].
  apply Nat.eqb_eq in Hj. cbn [fst] in Hj. subst j.
  apply in_rev, filter_In in Hin. destruct Hin as [Hin Hc]. cbn [snd] in *.
  split; [exact Hin|]. apply negb_true_iff, String.eqb_neq in Hc. exact Hc.
Qed.

Lemma last_edit_none (i : nat) (edits : list (nat * string)) :
  last_edit i edits = None <->
  forall c, In (i, c) edits -> c = "Other".
Proof.
  unfold last_edit. split.
  - destruct (find _ _) eqn:E; [discriminate|]. intros _ c Hin.
    destruct (String.eqb_spec c "Other") as [-> | Hne]; [reflexivity|].
    assert (Hf : In (i, c) (rev (filter (fun e => negb (String.eqb (snd e) "Other"))
                                   edits))).
    { apply in_rev. rewrite rev_involutive. apply filter_In.
      split; [exact Hin|]. cbn [snd]. now apply negb_true_iff, String.eqb_neq. }
    apply (find_none _ _ E) in Hf. cbn [fst] in Hf.
    now rewrite Nat.eqb_refl in Hf.
  - intros H. destruct (find _ _) as [[j c]|] eqn:E; [|reflexivity].
    apply find_some in E. destruct E as [Hin Hj].
    apply Nat.eqb_eq in Hj. cbn [fst] in Hj. subst j.
    apply in_rev, filter_In in Hin. destruct Hin as [Hin Hc]. cbn [snd] in Hc.
    rewrite (H c Hin) in Hc. discriminate.
Qed.




Lemma in_editor_uncat (df_filtered : list row) (i : nat) :
  existsb (fun e => (idx (base e) =? i)%nat) (uncat (exp_df df_filtered)) =
  in_editor df_filtered i.
Proof.
  apply eq_true_iff_eq. unfold in_editor, uncat, exp_df.
  rewrite !existsb_exists. split.
  - intros [e [He Hi]]. apply filter_In in He. destruct He as [He Hc].
    apply in_map_iff in He. destruct He as [v [<- Hv]].
    apply filter_In in Hv. destruct Hv as [Hv Hn]. cbn [base] in *.
    exists v. split; [exact Hv|]. now rewrite Hi, Hn, Hc.
  - intros [v [Hv H]]. apply andb_true_iff in H. destruct H as [H Hc].
    apply andb_true_iff in H. destruct H as [Hi Hn].
    exists {| base := v; Abs_Amount := (- Amount v)%Z |}. split; [|exact Hi].
    apply filter_In. split; [|exact Hc].
    apply in_map_iff. exists v. split; [reflexivity|].
    apply filter_In. now split.
Qed.

Lemma last_edit_edited_uncat (choice : nat -> string)
    (df_filtered : list row) (i : nat) :
  last_edit i (edited_uncat choice (exp_df df_filtered)) =
  if in_editor df_filtered i && negb (String.eqb (choice i) "Other")
  then Some (choice i) else None.
Proof.
  rewrite <- in_editor_uncat.
  destruct (last_edit i _) as [c|] eqn:E.
  - apply last_edit_some in E. destruct E as [Hin Hc].
    unfold edited_uncat in Hin. apply in_map_iff in Hin.
    destruct Hin as [e [[= Hi <-] He]].
    assert (Hex : existsb (fun e => (idx (base e) =? i)%nat)
                    (uncat (exp_df df_filtered)) = true).
    { apply existsb_exists. exists e. split; [exact He|].
      now apply Nat.eqb_eq. }
    rewrite Hex, Hi. apply String.eqb_neq in Hc. rewrite Hi in Hc.
    now rewrite Hc.
  - destruct (existsb _ _) eqn:Hex; [|reflexivity].
    apply existsb_exists in Hex. destruct Hex as [e [He Hi]].
    apply Nat.eqb_eq in Hi.
    assert (Hc : choice i = "Other").
    { apply (proj1 (last_edit_none i _) E). unfold edited_uncat.
      apply in_map_iff. exists e. split; [now rewrite Hi | exact He]. }
    now rewrite Hc.
Qed.

Lemma NoDup_label (df : list row) (r v : row) :
  NoDup (map idx df) -> In r df -> In v df -> idx v = idx r -> v = r.
Proof.
  induction df as [|x df IH]; intros Hn Hr Hv Hi; [destruct Hr|].
  cbn [map] in Hn. inversion Hn as [|? ? Hx Hn']; subst.
  destruct Hr as [-> | Hr], Hv as [-> | Hv].
  - reflexivity.
  - destruct Hx. rewrite <- Hi. now apply in_map.
  - destruct Hx. rewrite Hi. now apply in_map.
  - now apply IH.
Qed.


